(** * LessonsStorage: backend selection, fallback and migration

    A shallow embedding of [src/lessons-storage.js].  The class keeps three
    mutable fields ([db], [useIndexedDB], [initialized]) and talks to two
    browser providers: IndexedDB (asynchronous requests that settle with a
    success or an error event) and localStorage (synchronous, may throw).

    Every [async] method is a computation in the monad [M]: it threads the
    world (the instance fields plus a double of the two providers) and
    settles as a resolved or a rejected promise, or stays pending when no
    handler ever settles it.  The open request of [init] is delivered by a
    separate event, so that calls overlapping an unfinished initialization
    can be expressed. *)

From Stdlib Require Import Ascii String.
From stdpp Require Import gmap strings list fin_maps pretty sorting.

Set Default Proof Using "Type".
Local Open Scope string_scope.
Local Open Scope list_scope.
Local Open Scope nat_scope.

(** ** Data model *)

(** The [id] attribute of a lesson: a number or a string, compared with
    [===] (no coercion between the two). *)
Inductive LessonId :=
| IdNum (n : Z)
| IdStr (s : string).

#[global] Instance LessonId_eq_dec : EqDecision LessonId.
Proof. solve_decision. Defined.

#[global] Instance LessonId_countable : Countable LessonId.
Proof.
  refine (inj_countable'
    (fun k => match k with IdNum n => inl n | IdStr s => inr s end)
    (fun x => match x with inl n => IdNum n | inr s => IdStr s end) _).
  by intros [].
Defined.

(** A lesson is opaque apart from [id]; [rest] is the JSON text of its
    other attributes. *)
Record Lesson := { id : LessonId; rest : string }.

#[global] Instance Lesson_eq_dec : EqDecision Lesson.
Proof. solve_decision. Defined.

(** The JavaScript values that flow through the class. *)
Inductive JSValue :=
| VUndefined
| VNull
| VBool (b : bool)
| VNum (n : Z)
| VStr (s : string)
| VLesson (l : Lesson)
| VArray (items : list Lesson).

#[global] Instance JSValue_eq_dec : EqDecision JSValue.
Proof. solve_decision. Defined.

(** Truthiness, as used by [if (migrated)]. *)
Definition truthy (v : JSValue) : bool :=
  match v with
  | VUndefined | VNull => false
  | VBool b => b
  | VNum n => negb (n =? 0)%Z
  | VStr s => negb (bool_decide (s = EmptyString))
  | VLesson _ | VArray _ => true
  end.

(** An exception object: [e.name], [e.code] (DOM exceptions carry a legacy
    numeric code) and [e.message]. *)
Record JSError := { err_name : string; err_code : option Z; err_message : string }.

#[global] Instance JSError_eq_dec : EqDecision JSError.
Proof. solve_decision. Defined.

(** [new Error(message)] *)
Definition new_Error (message : string) : JSError :=
  {| err_name := "Error"; err_code := None; err_message := message |}.

Definition DOMException (name : string) (code : Z) : JSError :=
  {| err_name := name; err_code := Some code; err_message := EmptyString |}.

Definition QuotaExceededError : JSError := DOMException "QuotaExceededError" 22.
Definition NotFoundError : JSError := DOMException "NotFoundError" 8.
Definition VersionError : JSError := DOMException "VersionError" 0.
Definition TypeError (message : string) : JSError :=
  {| err_name := "TypeError"; err_code := None; err_message := message |}.

(** ** JSON text

    localStorage holds JSON text.  The double keeps the value the text
    denotes ([JSON.parse (JSON.stringify v)] is [v] on this data model) and
    uses the printer below for the size of the text.  The entry of the
    lessons is an array of lessons; where a document of another shape is
    used as an array the methods throw a [TypeError], as JavaScript does
    for [null], numbers, booleans and plain objects. *)

Definition dquote : string := String "034"%char EmptyString.

Definition quoted (s : string) : string := dquote +:+ s +:+ dquote.

Definition id_text (k : LessonId) : string :=
  match k with
  | IdNum n => pretty n
  | IdStr s => quoted s
  end.

Definition lesson_text (l : Lesson) : string :=
  "{" +:+ quoted "id" +:+ ":" +:+ id_text (id l)
      +:+ (if bool_decide (rest l = EmptyString) then EmptyString else "," +:+ rest l)
      +:+ "}".

Fixpoint join_text (xs : list string) : string :=
  match xs with
  | [] => EmptyString
  | [x] => x
  | x :: xs' => x +:+ "," +:+ join_text xs'
  end.

Definition JSON_stringify (v : JSValue) : string :=
  match v with
  | VUndefined => "undefined"
  | VNull => "null"
  | VBool true => "true"
  | VBool false => "false"
  | VNum n => pretty n
  | VStr s => quoted s
  | VLesson l => lesson_text l
  | VArray items => "[" +:+ join_text (lesson_text <$> items) +:+ "]"
  end.

(** ** The two providers *)

(** localStorage: the stored documents, the capacity a single value may
    take, and the error every [setItem] raises when writing is refused for
    another reason (storage disabled by policy, say). *)
Record LocalStorage := {
  ls_items : gmap string JSValue;
  ls_capacity : nat;
  ls_write_error : option JSError
}.

(** The IndexedDB database named [LessonsDB]: its version (0 before it is
    first created) and its object stores, when they exist. *)
Record Database := {
  db_version : nat;
  lessons_store : option (gmap LessonId Lesson);
  metadata_store : option (gmap string JSValue)
}.

Definition no_database : Database :=
  {| db_version := 0; lessons_store := None; metadata_store := None |}.

(** Calls received by the IndexedDB double, oldest first. *)
Inductive IDBCall :=
| CallOpen (name : string) (version : nat)
| LessonsPut (l : Lesson)
| LessonsGetAll
| LessonsGet (key : LessonId)
| LessonsDelete (key : LessonId)
| LessonsClear
| MetadataPut (key : string) (value : JSValue)
| MetadataGet (key : string).

#[global] Instance IDBCall_eq_dec : EqDecision IDBCall.
Proof. solve_decision. Defined.

Inductive LogEntry :=
| ConsoleLog (text : string)
| ConsoleWarn (text : string)
| ConsoleError (text : string) (error : option JSError).

#[global] Instance LogEntry_eq_dec : EqDecision LogEntry.
Proof. solve_decision. Defined.

(** The browser: [window.indexedDB] present or not, the database, the
    script of faults (one entry per request, in the order the requests
    settle: [Some e] makes the request fire [onerror] with [e]; an
    exhausted script means success), the calls seen so far, localStorage
    and the console. *)
Record Browser := {
  has_indexedDB : bool;
  database : Database;
  faults : list (option JSError);
  calls : list IDBCall;
  localStorage : LocalStorage;
  console : list LogEntry
}.

(** The fields set by the constructor; [db] is the connection, named by the
    number of the open request that produced it. *)
Record This := {
  db : option nat;
  useIndexedDB : bool;
  initialized : bool
}.

Definition dbName : string := "LessonsDB".
Definition dbVersion : nat := 1.

(** [new LessonsStorage()] *)
Definition constructor : This :=
  {| db := None; useIndexedDB := true; initialized := false |}.

(** Work started without being awaited. *)
Inductive Task := MigrateFromLocalStorage.

(** The world: the instance, the browser, the open requests not yet
    settled and the detached tasks not yet run. *)
Record World := {
  this : This;
  browser : Browser;
  pending_opens : list nat;
  detached : list Task
}.

Inductive BackendKind := TransactionalStore | SynchronousFallback.

#[global] Instance BackendKind_eq_dec : EqDecision BackendKind.
Proof. solve_decision. Defined.

(** The test every method dispatches on: [this.useIndexedDB && this.db]. *)
Definition uses_db (t : This) : bool := useIndexedDB t && bool_decide (is_Some (db t)).

Definition backendKind (w : World) : BackendKind :=
  if uses_db (this w) then TransactionalStore else SynchronousFallback.

(** ** Field updates *)

Definition with_this (f : This -> This) (w : World) : World :=
  {| this := f (this w); browser := browser w;
     pending_opens := pending_opens w; detached := detached w |}.

Definition with_browser (f : Browser -> Browser) (w : World) : World :=
  {| this := this w; browser := f (browser w);
     pending_opens := pending_opens w; detached := detached w |}.

Definition with_pending (f : list nat -> list nat) (w : World) : World :=
  {| this := this w; browser := browser w;
     pending_opens := f (pending_opens w); detached := detached w |}.

Definition with_detached (f : list Task -> list Task) (w : World) : World :=
  {| this := this w; browser := browser w;
     pending_opens := pending_opens w; detached := f (detached w) |}.

Definition set_db (h : option nat) (t : This) : This :=
  {| db := h; useIndexedDB := useIndexedDB t; initialized := initialized t |}.
Definition set_useIndexedDB (b : bool) (t : This) : This :=
  {| db := db t; useIndexedDB := b; initialized := initialized t |}.
Definition set_initialized (b : bool) (t : This) : This :=
  {| db := db t; useIndexedDB := useIndexedDB t; initialized := b |}.

Definition set_database (d : Database) (b : Browser) : Browser :=
  {| has_indexedDB := has_indexedDB b; database := d; faults := faults b;
     calls := calls b; localStorage := localStorage b; console := console b |}.
Definition set_faults (fs : list (option JSError)) (b : Browser) : Browser :=
  {| has_indexedDB := has_indexedDB b; database := database b; faults := fs;
     calls := calls b; localStorage := localStorage b; console := console b |}.
Definition add_call (c : IDBCall) (b : Browser) : Browser :=
  {| has_indexedDB := has_indexedDB b; database := database b; faults := faults b;
     calls := calls b ++ [c]; localStorage := localStorage b; console := console b |}.
Definition set_localStorage (s : LocalStorage) (b : Browser) : Browser :=
  {| has_indexedDB := has_indexedDB b; database := database b; faults := faults b;
     calls := calls b; localStorage := s; console := console b |}.
Definition add_console (e : LogEntry) (b : Browser) : Browser :=
  {| has_indexedDB := has_indexedDB b; database := database b; faults := faults b;
     calls := calls b; localStorage := localStorage b; console := console b ++ [e] |}.

Definition set_items (m : gmap string JSValue) (s : LocalStorage) : LocalStorage :=
  {| ls_items := m; ls_capacity := ls_capacity s; ls_write_error := ls_write_error s |}.

Definition set_lessons (m : option (gmap LessonId Lesson)) (d : Database) : Database :=
  {| db_version := db_version d; lessons_store := m; metadata_store := metadata_store d |}.
Definition set_metadata (m : option (gmap string JSValue)) (d : Database) : Database :=
  {| db_version := db_version d; lessons_store := lessons_store d; metadata_store := m |}.
Definition set_version (v : nat) (d : Database) : Database :=
  {| db_version := v; lessons_store := lessons_store d; metadata_store := metadata_store d |}.

(** ** Promises

    How an awaited call settles. [Pending] is a promise no handler ever
    settles. *)
Inductive Outcome (A : Type) :=
| Resolved (a : A)
| Rejected (e : JSError)
| Pending.
Arguments Resolved {A} a.
Arguments Rejected {A} e.
Arguments Pending {A}.

Definition M (A : Type) : Type := World -> Outcome A * World.

Definition ret {A} (a : A) : M A := fun w => (Resolved a, w).
Definition throw {A} (e : JSError) : M A := fun w => (Rejected e, w).
Definition never {A} : M A := fun w => (Pending, w).

Definition bind {A B} (m : M A) (k : A -> M B) : M B :=
  fun w =>
    match m w with
    | (Resolved a, w') => k a w'
    | (Rejected e, w') => (Rejected e, w')
    | (Pending, w') => (Pending, w')
    end.

Notation "x <- m ; k" := (bind m (fun x => k))
  (at level 20, m at level 100, k at level 200, only parsing).
Notation "m ;; k" := (bind m (fun _ => k))
  (at level 100, k at level 200, only parsing, right associativity).

(** [try { body } catch (e) { handler e }] *)
Definition try_catch {A} (body : M A) (handler : JSError -> M A) : M A :=
  fun w =>
    match body w with
    | (Rejected e, w') => handler e w'
    | r => r
    end.

(** [for (const x of xs) { await body x }] *)
Fixpoint for_of {A} (xs : list A) (body : A -> M unit) : M unit :=
  match xs with
  | [] => ret tt
  | x :: xs' => body x ;; for_of xs' body
  end.

Definition get_this : M This := fun w => (Resolved (this w), w).
Definition update_browser (f : Browser -> Browser) : M unit :=
  fun w => (Resolved tt, with_browser f w).

Definition console_log (text : string) : M unit :=
  update_browser (add_console (ConsoleLog text)).
Definition console_error (text : string) (e : option JSError) : M unit :=
  update_browser (add_console (ConsoleError text e)).

(** ** localStorage *)

(** [localStorage.getItem(key)]: the stored document, or [null]. *)
Definition localStorage_getItem (key : string) : M (option JSValue) :=
  fun w => (Resolved (ls_items (localStorage (browser w)) !! key), w).

(** [localStorage.setItem(key, JSON.stringify(doc))]: throws, storing
    nothing, when writing is refused or the text is larger than the
    capacity. *)
Definition localStorage_setItem (key : string) (doc : JSValue) : M unit :=
  fun w =>
    let s := localStorage (browser w) in
    match ls_write_error s with
    | Some e => (Rejected e, w)
    | None =>
        if (ls_capacity s <? String.length (JSON_stringify doc))%nat
        then (Rejected QuotaExceededError, w)
        else (Resolved tt,
              with_browser (set_localStorage (set_items (<[key:=doc]> (ls_items s)) s)) w)
    end.

(** A parsed document used as an array: calling an array method on
    anything else throws a [TypeError]. *)
Definition expect_array (what : string) (doc : JSValue) : M (list Lesson) :=
  match doc with
  | VArray items => ret items
  | _ => throw (TypeError what)
  end.

(** ** IndexedDB *)

(** Keys are returned in ascending order: numbers before strings. *)
Definition key_leb (a b : LessonId) : bool :=
  match a, b with
  | IdNum x, IdNum y => (x <=? y)%Z
  | IdNum _, IdStr _ => true
  | IdStr _, IdNum _ => false
  | IdStr x, IdStr y => String.leb x y
  end.

Definition lesson_le (a b : Lesson) : Prop := key_leb (id a) (id b).

#[global] Instance lesson_le_dec a b : Decision (lesson_le a b).
Proof. unfold lesson_le. apply _. Defined.

(** [store.getAll()] on the lessons store. *)
Definition all_records (m : gmap LessonId Lesson) : list Lesson :=
  merge_sort lesson_le ((map_to_list m).*2).

Inductive IDBEvent :=
| OnSuccess (result : JSValue)
| OnError (error : JSError).

Definition is_open (c : IDBCall) : bool :=
  match c with CallOpen _ _ => true | _ => false end.

Definition is_put (c : IDBCall) : bool :=
  match c with LessonsPut _ => true | _ => false end.

(** The open primitive's call counter. *)
Definition count_opens (w : World) : nat :=
  length (filter is_open (calls (browser w))).

(** Does the object store the request needs exist?  Otherwise
    [db.transaction] throws. *)
Definition store_present (c : IDBCall) (d : Database) : bool :=
  match c with
  | CallOpen _ _ => true
  | LessonsPut _ | LessonsGetAll | LessonsGet _ | LessonsDelete _ | LessonsClear =>
      bool_decide (is_Some (lessons_store d))
  | MetadataPut _ _ | MetadataGet _ =>
      bool_decide (is_Some (metadata_store d))
  end.

(** What a request that succeeds does to the database, and its
    [request.result].  For the metadata store the result of [get] is the
    [value] attribute of the record found ([request.result?.value]). *)
Definition serve (c : IDBCall) (d : Database) : JSValue * Database :=
  match c with
  | CallOpen _ _ => (VUndefined, d)
  | LessonsPut l => (VUndefined, set_lessons (insert (id l) l <$> lessons_store d) d)
  | LessonsGetAll => (VArray (from_option all_records [] (lessons_store d)), d)
  | LessonsGet key =>
      (from_option VLesson VUndefined (lessons_store d ≫= lookup key), d)
  | LessonsDelete key => (VUndefined, set_lessons (delete key <$> lessons_store d) d)
  | LessonsClear => (VUndefined, set_lessons ((fun _ => ∅) <$> lessons_store d) d)
  | MetadataPut key value =>
      (VUndefined, set_metadata (insert key value <$> metadata_store d) d)
  | MetadataGet key =>
      (default VUndefined (metadata_store d ≫= lookup key), d)
  end.

(** The next entry of the fault script. *)
Definition next_fault (b : Browser) : option JSError := default None (head (faults b)).
Definition pop_fault (b : Browser) : Browser := set_faults (tail (faults b)) b.

(** [this.db.transaction([store], mode).objectStore(store).<request>]
    inside [new Promise]: a throw of [transaction] rejects the promise;
    otherwise the request is issued and settles with one of its two
    events. *)
Definition idb_request (c : IDBCall) : M IDBEvent :=
  fun w =>
    if store_present c (database (browser w)) then
      let w1 := with_browser (add_call c) w in
      match next_fault (browser w1) with
      | Some error => (Resolved (OnError error), with_browser pop_fault w1)
      | None =>
          let '(result, d) := serve c (database (browser w1)) in
          (Resolved (OnSuccess result),
           with_browser (fun b => set_database d (pop_fault b)) w1)
      end
    else (Rejected NotFoundError, w).

(** ** init *)

(** [request.onerror] *)
Definition init_onerror (error : JSError) (w : World) : World :=
  let w := with_browser
             (add_console (ConsoleError "Failed to open IndexedDB:" (Some error))) w in
  let w := with_this (set_useIndexedDB false) w in
  let w := with_this (set_initialized true) w in
  w (* resolve(true) *).

(** [request.onsuccess]; the migration is started and not awaited. *)
Definition init_onsuccess (result : nat) (w : World) : World :=
  let w := with_this (set_db (Some result)) w in
  let w := with_this (set_initialized true) w in
  let w := with_browser
             (add_console (ConsoleLog "✅ IndexedDB initialized for lessons storage")) w in
  let w := with_detached (fun ts => ts ++ [MigrateFromLocalStorage]) w in
  w (* resolve(true) *).

(** [request.onupgradeneeded] *)
Definition init_onupgradeneeded (d : Database) : Database :=
  let d := if bool_decide (is_Some (lessons_store d)) then d
           else set_lessons (Some ∅) d in
  let d := if bool_decide (is_Some (metadata_store d)) then d
           else set_metadata (Some ∅) d in
  d.

(** What a call of [init] has done when it returns its promise. *)
Inductive InitCall :=
| InitDone                (* the promise is already resolved with [true] *)
| InitAwaits (rq : nat)   (* it resolves when open request [rq] settles *).

(** The synchronous part of [init], up to and including
    [indexedDB.open(this.dbName, this.dbVersion)]. *)
Definition init_begin (w : World) : InitCall * World :=
  if initialized (this w) then (InitDone, w)
  else if negb (has_indexedDB (browser w)) then
    let w := with_browser
      (add_console (ConsoleWarn "IndexedDB not available, falling back to localStorage")) w in
    let w := with_this (set_useIndexedDB false) w in
    let w := with_this (set_initialized true) w in
    (InitDone, w)
  else
    let w := with_browser (add_call (CallOpen dbName dbVersion)) w in
    let rq := count_opens w in
    (InitAwaits rq, with_pending (fun rqs => rqs ++ [rq]) w).

(** The open request [rq] settles: the provider fires [onerror], or
    [onupgradeneeded] (when the stored version is lower) and then
    [onsuccess]. *)
Definition open_settles (rq : nat) (w : World) : World :=
  let w := with_pending (filter (fun r => r ≠ rq)) w in
  let d := database (browser w) in
  match next_fault (browser w) with
  | Some error => init_onerror error (with_browser pop_fault w)
  | None =>
      if (dbVersion <? db_version d)%nat
      then init_onerror VersionError (with_browser pop_fault w)
      else
        let d := if (db_version d <? dbVersion)%nat
                 then set_version dbVersion (init_onupgradeneeded d) else d in
        init_onsuccess rq (with_browser (fun b => set_database d (pop_fault b)) w)
  end.

(** [await this.init()] with nothing else running in between: the open
    request settles before the caller goes on. *)
Definition init : M bool :=
  fun w =>
    match init_begin w with
    | (InitDone, w) => (Resolved true, w)
    | (InitAwaits rq, w) => (Resolved true, open_settles rq w)
    end.

(** ** The methods *)

Definition is_quota_error (e : JSError) : bool :=
  bool_decide (err_name e = "QuotaExceededError") || bool_decide (err_code e = Some 22%Z).

Definition quota_message_data : string :=
  "Storage quota exceeded. Your data is too large for localStorage. Please enable IndexedDB support in your browser.".
Definition quota_message_lesson : string :=
  "Storage quota exceeded. Your lesson is too large. Please enable IndexedDB in your browser or reduce lesson size.".

(** [array.findIndex(i => i.id === key)]; [None] stands for [-1]. *)
Definition findIndex (key : LessonId) (array : list Lesson) : option nat :=
  fst <$> list_find (fun i => id i = key) array.

(** [existing ? JSON.parse(existing) : []] *)
Definition parse_or_empty (existing : option JSValue) : JSValue :=
  match existing with
  | Some doc => doc
  | None => VArray []
  end.

Definition saveToLocalStorage (storageKey : string) (item : Lesson) (isArrayItem : bool)
  : M bool :=
  try_catch
    ((if isArrayItem then
        existing <- localStorage_getItem storageKey ;
        array <- expect_array "array.findIndex is not a function" (parse_or_empty existing) ;
        let index := findIndex (id item) array in
        let array :=
          match index with
          | Some index => <[index:=item]> array
          | None => array ++ [item]
          end in
        localStorage_setItem storageKey (VArray array)
      else
        localStorage_setItem storageKey (VLesson item)) ;;
     ret true)
    (fun e =>
       if is_quota_error e then throw (new_Error quota_message_data)
       else throw e).

Definition saveLesson (lesson : Lesson) : M bool :=
  init ;;
  this <- get_this ;
  if uses_db this then
    ev <- idb_request (LessonsPut lesson) ;
    match ev with
    | OnSuccess _ => ret true
    | OnError error =>
        console_error "Failed to save lesson to IndexedDB:" (Some error) ;;
        throw error
    end
  else
    saveToLocalStorage "aiLessons" lesson true.

Definition getAllLessons : M JSValue :=
  init ;;
  this <- get_this ;
  if uses_db this then
    ev <- idb_request LessonsGetAll ;
    match ev with
    | OnSuccess result => ret (if truthy result then result else VArray [])
    | OnError error =>
        console_error "Failed to get lessons from IndexedDB:" (Some error) ;;
        ret (VArray [])
    end
  else
    lessonsStr <- localStorage_getItem "aiLessons" ;
    ret (parse_or_empty lessonsStr).

(** [lessons.find(l => l.id === lessonId)] *)
Definition find_lesson (lessonId : LessonId) (lessons : list Lesson) : JSValue :=
  match list_find (fun l => id l = lessonId) lessons with
  | Some (_, l) => VLesson l
  | None => VUndefined
  end.

Definition getLesson (lessonId : LessonId) : M JSValue :=
  init ;;
  this <- get_this ;
  if uses_db this then
    ev <- idb_request (LessonsGet lessonId) ;
    match ev with
    | OnSuccess result => ret result
    | OnError _ => ret VNull
    end
  else
    lessons <- getAllLessons ;
    lessons <- expect_array "lessons.find is not a function" lessons ;
    ret (find_lesson lessonId lessons).

Definition saveAllLessons (lessons : list Lesson) : M bool :=
  init ;;
  this <- get_this ;
  if uses_db this then
    (* the promise around [store.clear()] has no [onerror] *)
    ev <- idb_request LessonsClear ;
    match ev with
    | OnSuccess _ => ret tt
    | OnError _ => never
    end ;;
    for_of lessons (fun lesson => saveLesson lesson ;; ret tt) ;;
    ret true
  else
    try_catch
      (localStorage_setItem "aiLessons" (VArray lessons) ;;
       ret true)
      (fun e =>
         if is_quota_error e then throw (new_Error quota_message_lesson)
         else throw e).

Definition deleteLesson (lessonId : LessonId) : M bool :=
  init ;;
  this <- get_this ;
  if uses_db this then
    ev <- idb_request (LessonsDelete lessonId) ;
    match ev with
    | OnSuccess _ => ret true
    | OnError error => throw error
    end
  else
    lessons <- getAllLessons ;
    lessons <- expect_array "lessons.filter is not a function" lessons ;
    let filtered := filter (fun l => id l ≠ lessonId) lessons in
    saveAllLessons filtered.

Definition saveMetadata (key : string) (value : JSValue) : M bool :=
  init ;;
  this <- get_this ;
  if uses_db this then
    ev <- idb_request (MetadataPut key value) ;
    match ev with
    | OnSuccess _ => ret true
    | OnError error => throw error
    end
  else ret true.

Definition getMetadata (key : string) : M JSValue :=
  init ;;
  this <- get_this ;
  if uses_db this then
    ev <- idb_request (MetadataGet key) ;
    match ev with
    | OnSuccess result => ret result
    | OnError _ => ret VNull
    end
  else ret VNull.

Definition migrateFromLocalStorage : M unit :=
  try_catch
    (migrated <- getMetadata "migrated" ;
     if truthy migrated then ret tt
     else
       lessonsStr <- localStorage_getItem "aiLessons" ;
       match lessonsStr with
       | Some doc =>
           lessons <- expect_array "lessons is not iterable" doc ;
           for_of lessons (fun lesson => saveLesson lesson ;; ret tt) ;;
           console_log ("✅ Migrated " +:+ pretty (length lessons) +:+ " lessons to IndexedDB")
       | None => ret tt
       end ;;
       saveMetadata "migrated" (VBool true) ;;
       ret tt)
    (fun error => console_error "Migration error:" (Some error)).

Record StorageInfo := { type : string; lessonsCount : JSValue }.

(** [value.length] *)
Definition length_of (value : JSValue) : M JSValue :=
  match value with
  | VArray items => ret (VNum (Z.of_nat (length items)))
  | VStr s => ret (VNum (Z.of_nat (String.length s)))
  | VUndefined | VNull => throw (TypeError "Cannot read properties of null")
  | _ => ret VUndefined
  end.

Definition getStorageInfo : M StorageInfo :=
  init ;;
  this <- get_this ;
  lessons <- getAllLessons ;
  count <- length_of lessons ;
  ret {| type := if useIndexedDB this then "IndexedDB" else "LocalStorage";
         lessonsCount := count |}.

(** ** Detached work and the event loop *)

Definition run_task (t : Task) : M unit :=
  match t with
  | MigrateFromLocalStorage => migrateFromLocalStorage
  end.

(** The oldest detached task runs to its end. *)
Definition run_detached (w : World) : World :=
  match detached w with
  | [] => w
  | t :: ts => (run_task t (with_detached (fun _ => ts) w)).2
  end.

(** A new page load over the same browser: a fresh instance, nothing in
    flight. *)
Definition reload (w : World) : World :=
  {| this := constructor; browser := browser w; pending_opens := []; detached := [] |}.

(** The operations offered to callers. *)
Inductive PublicOp :=
| OpSaveLesson (lesson : Lesson)
| OpGetAllLessons
| OpGetLesson (lessonId : LessonId)
| OpDeleteLesson (lessonId : LessonId)
| OpSaveAllLessons (lessons : list Lesson)
| OpSaveMetadata (key : string) (value : JSValue)
| OpGetMetadata (key : string)
| OpGetStorageInfo.

(** The world an operation leaves behind, however it settles. *)
Definition perform (op : PublicOp) (w : World) : World :=
  match op with
  | OpSaveLesson lesson => (saveLesson lesson w).2
  | OpGetAllLessons => (getAllLessons w).2
  | OpGetLesson lessonId => (getLesson lessonId w).2
  | OpDeleteLesson lessonId => (deleteLesson lessonId w).2
  | OpSaveAllLessons lessons => (saveAllLessons lessons w).2
  | OpSaveMetadata key value => (saveMetadata key value w).2
  | OpGetMetadata key => (getMetadata key w).2
  | OpGetStorageInfo => (getStorageInfo w).2
  end.

(** Callers that overlap.  A caller invokes an operation, which runs
    [init] up to its first await; when the promise of [init] resolves the
    caller evaluates [this.useIndexedDB && this.db] (recorded in
    [observed]) and the rest of the operation runs.  The events are the
    points at which calls can interleave with an unfinished
    initialization; the rest of an operation and a detached migration each
    run as one step. *)
Inductive Event :=
| Invoke (caller : nat) (op : PublicOp)
| OpenSettles (rq : nat)
| RunDetached.

Record Loop := {
  world : World;
  awaiting : list (nat * (nat * PublicOp));
  observed : list (nat * BackendKind)
}.

Definition start (w : World) : Loop :=
  {| world := w; awaiting := []; observed := [] |}.

Definition resume (l : Loop) (who : nat * PublicOp) : Loop :=
  {| world := perform who.2 (world l);
     awaiting := awaiting l;
     observed := observed l ++ [(who.1, backendKind (world l))] |}.

Definition step (ev : Event) (l : Loop) : Loop :=
  match ev with
  | Invoke caller op =>
      match init_begin (world l) with
      | (InitDone, w) =>
          resume {| world := w; awaiting := awaiting l; observed := observed l |}
                 (caller, op)
      | (InitAwaits rq, w) =>
          {| world := w;
             awaiting := awaiting l ++ [(rq, (caller, op))];
             observed := observed l |}
      end
  | OpenSettles rq =>
      if bool_decide (rq ∈ pending_opens (world l)) then
        foldl resume
          {| world := open_settles rq (world l);
             awaiting := filter (fun a => a.1 ≠ rq) (awaiting l);
             observed := observed l |}
          (filter (fun a => a.1 = rq) (awaiting l)).*2
      else l
  | RunDetached =>
      {| world := run_detached (world l);
         awaiting := awaiting l;
         observed := observed l |}
  end.

Definition run (evs : list Event) (l : Loop) : Loop :=
  foldl (fun l ev => step ev l) l evs.

(** ** Vocabulary of the statements *)

(** Entry [i] of a fault script. *)
Definition fault_at (fs : list (option JSError)) (i : nat) : option JSError :=
  default None (fs !! i).

(** The provider raises no error from now on. *)
Definition healthy (w : World) : Prop := faults (browser w) = [].

(** The legacy entry of localStorage. *)
Definition legacy_entry (w : World) : option JSValue :=
  ls_items (localStorage (browser w)) !! "aiLessons".

(** The store of the backend in use exists and holds no record. *)
Definition store_empty (w : World) : Prop :=
  match backendKind w with
  | TransactionalStore => lessons_store (database (browser w)) = Some ∅
  | SynchronousFallback => legacy_entry w = None ∨ legacy_entry w = Some (VArray [])
  end.


(** The store of the backend in use holds no record with this id. *)
Definition store_lacks (w : World) (lessonId : LessonId) : Prop :=
  match backendKind w with
  | TransactionalStore =>
      ∃ m, lessons_store (database (browser w)) = Some m ∧ m !! lessonId = None
  | SynchronousFallback =>
      ∃ items, parse_or_empty (legacy_entry w) = VArray items ∧
               ∀ l, l ∈ items → id l ≠ lessonId
  end.

(** The value of the [migrated] flag in the metadata store. *)
Definition migrated_flag (w : World) : JSValue :=
  default VUndefined (metadata_store (database (browser w)) ≫= lookup "migrated").

(** The records copied so far: the [put] calls on the lessons store. *)
Definition copies (w : World) : list IDBCall := filter is_put (calls (browser w)).

(** What survives a method called once [initialized] is true. *)
Definition frame (w w' : World) : Prop :=
  this w' = this w ∧
  pending_opens w' = pending_opens w ∧
  detached w' = detached w ∧
  count_opens w' = count_opens w ∧
  has_indexedDB (browser w') = has_indexedDB (browser w) ∧
  db_version (database (browser w')) = db_version (database (browser w)).

Definition inert {A} (m : M A) : Prop :=
  ∀ w, initialized (this w) = true → frame w (m w).2.

(** A sequence of calls made one after the other, each awaited, whatever
    its outcome. *)
Fixpoint call_each {A B} (f : A -> M B) (xs : list A) (w : World)
  : list (Outcome B) * World :=
  match xs with
  | [] => ([], w)
  | x :: xs' =>
      let '(r, w1) := f x w in
      let '(rs, w2) := call_each f xs' w1 in
      (r :: rs, w2)
  end.

Definition is_resolved {A} (r : Outcome A) : Prop :=
  match r with Resolved _ => True | _ => False end.

Definition not_found (v : JSValue) : Prop := v = VUndefined ∨ v = VNull.

(** The world after request [c] has succeeded. *)
Definition after_request (c : IDBCall) (w : World) : World :=
  with_browser
    (fun b => set_database (serve c (database b)).2 (pop_fault (add_call c b))) w.

Definition put_all (lessons : list Lesson) (w : World) : World :=
  foldl (fun w l => after_request (LessonsPut l) w) w lessons.

Definition insert_all (lessons : list Lesson) (m : gmap LessonId Lesson)
  : gmap LessonId Lesson :=
  foldl (fun m l => <[id l:=l]> m) m lessons.

(** The array [saveToLocalStorage] writes back: the item replaces the
    first element with its id, or is appended. *)
Definition upsert (item : Lesson) (array : list Lesson) : list Lesson :=
  match findIndex (id item) array with
  | Some index => <[index:=item]> array
  | None => array ++ [item]
  end.

(** The world after [setItem] has stored [doc] as the legacy entry. *)
Definition stored (doc : JSValue) (w : World) : World :=
  with_browser
    (fun b => set_localStorage
                (set_items (<["aiLessons":=doc]> (ls_items (localStorage b)))
                           (localStorage b)) b) w.

(** The promise of the call is settled in every world. *)
Definition settles {A} (m : M A) : Prop := ∀ w, (m w).1 ≠ Pending.

(** The browser after the requests [LessonsPut] of [lessons] have all
    succeeded, in this order. *)
Definition put_all_browser (lessons : list Lesson) (b : Browser) : Browser :=
  {| has_indexedDB := has_indexedDB b;
     database := set_lessons (insert_all lessons <$> lessons_store (database b)) (database b);
     faults := drop (length lessons) (faults b);
     calls := calls b ++ (LessonsPut <$> lessons);
     localStorage := localStorage b;
     console := console b |}.


(** The world a migration that copies [legacy] without a failure leaves. *)
Definition migrated_world (legacy : list Lesson) (w : World) : World :=
  after_request (MetadataPut "migrated" (VBool true))
    (with_browser
       (add_console
          (ConsoleLog ("✅ Migrated " +:+ pretty (length legacy) +:+ " lessons to IndexedDB")))
       (put_all legacy (after_request (MetadataGet "migrated") w))).

(** The world a migration leaves when the save of [r] fails with [e]
    after the records [pre] have been copied. *)
Definition interrupted_world (pre : list Lesson) (r : Lesson) (e : JSError) (w : World)
  : World :=
  with_browser
    (fun b =>
       add_console (ConsoleError "Migration error:" (Some e))
         (add_console (ConsoleError "Failed to save lesson to IndexedDB:" (Some e))
            (pop_fault (add_call (LessonsPut r) b))))
    (put_all pre (after_request (MetadataGet "migrated") w)).

(** C2 as stated: whatever save fails, every record of the legacy array
    is still attempted. *)
Definition migration_attempts_all (w : World) (legacy : list Lesson) : Prop :=
  ∀ l, l ∈ legacy → LessonsPut l ∈ copies (migrateFromLocalStorage w).2.


(** The body of the loops over lessons: [await this.saveLesson(lesson)]. *)
Definition save_and_continue (lesson : Lesson) : M unit :=
  bind (saveLesson lesson) (fun _ => ret tt).

(** The database once an open request for [dbVersion] has succeeded: the
    upgrade handler has run if the stored version was lower. *)
Definition upgraded (d : Database) : Database :=
  if db_version d <? dbVersion
  then set_version dbVersion (init_onupgradeneeded d) else d.

(** The world after a first call of [init] whose open request succeeded. *)
Definition opened_world (w : World) : World :=
  init_onsuccess (count_opens w + 1)
    (with_browser
       (fun b => set_database (upgraded (database b))
                   (pop_fault (add_call (CallOpen dbName dbVersion) b))) w).

(** Will the next open request fire [onerror]? *)
Definition open_fails (w : World) : bool :=
  bool_decide (is_Some (next_fault (browser w)))
  || (dbVersion <? db_version (database (browser w))).



(** C1 as stated: two callers that overlap an unfinished initialization
    cause a single open attempt and observe the same backend. *)
Definition single_open_attempt (w : World) (a b : nat * PublicOp) : Prop :=
  let n := count_opens w in
  let l := run [Invoke a.1 a.2; Invoke b.1 b.2;
                OpenSettles (n + 1); OpenSettles (n + 2)] (start w) in
  count_opens (world l) = n + 1 ∧
  ∃ k, observed l = [(a.1, k); (b.1, k)].

(** C9 as stated: from a process start, once [initialized] is true no
    later event changes the backend kind. *)
Definition backend_never_changes (w : World) : Prop :=
  ∀ (evs : list Event) (ev : Event),
    let l := run evs (start w) in
    initialized (this (world l)) = true →
    backendKind (world (step ev l)) = backendKind (world l).

(** The world after two calls of [init] that both found [initialized]
    false: each has issued its own open request. *)
Definition after_two_calls (w : World) : World :=
  let w := with_pending (fun rqs => rqs ++ [count_opens w + 1])
             (with_browser (add_call (CallOpen dbName dbVersion)) w) in
  with_pending (fun rqs => rqs ++ [count_opens w + 1])
    (with_browser (add_call (CallOpen dbName dbVersion)) w).

(** C10 in the words of the claim: read all lessons, filter out every
    record whose id is the given one, re-save the whole filtered array with
    [saveAllLessons]. *)
Definition delete_as_read_filter_resave (lessonId : LessonId) : M bool :=
  all <- getAllLessons ;
  match all with
  | VArray lessons => saveAllLessons (filter (fun l => id l ≠ lessonId) lessons)
  | _ => throw (TypeError "lessons.filter is not a function")
  end.

(** The world a migration leaves when the lookup of the flag has failed
    and the copy of [legacy] has then succeeded. *)
Definition remigrated_world (legacy : list Lesson) (w : World) : World :=
  after_request (MetadataPut "migrated" (VBool true))
    (with_browser
       (add_console
          (ConsoleLog ("✅ Migrated " +:+ pretty (length legacy) +:+ " lessons to IndexedDB")))
       (put_all legacy
          (with_browser (fun b => pop_fault (add_call (MetadataGet "migrated") b)) w))).

(** The call changes neither the instance nor what the two providers
    store, once [initialized] is true. *)
Definition read_only {A} (m : M A) : Prop :=
  ∀ w, initialized (this w) = true →
       this (m w).2 = this w ∧
       database (browser (m w).2) = database (browser w) ∧
       localStorage (browser (m w).2) = localStorage (browser w).

(** On the fallback the call makes no IndexedDB request. *)
Definition off_database {A} (m : M A) : Prop :=
  ∀ w, initialized (this w) = true → uses_db (this w) = false →
       this (m w).2 = this w ∧
       calls (browser (m w).2) = calls (browser w) ∧
       faults (browser (m w).2) = faults (browser w) ∧
       database (browser (m w).2) = database (browser w).

(** On the transactional backend the call does not write localStorage. *)
Definition off_localStorage {A} (m : M A) : Prop :=
  ∀ w, initialized (this w) = true → uses_db (this w) = true →
       this (m w).2 = this w ∧
       localStorage (browser (m w).2) = localStorage (browser w).

(** ** Sample worlds *)

Definition sample_storage (items : gmap string JSValue) (capacity : nat) : LocalStorage :=
  {| ls_items := items; ls_capacity := capacity; ls_write_error := None |}.

(** A browser in which the database has never been opened. *)
Definition new_browser (fs : list (option JSError)) (s : LocalStorage) : Browser :=
  {| has_indexedDB := true; database := no_database; faults := fs; calls := [];
     localStorage := s; console := [] |}.

Definition new_process (b : Browser) : World :=
  {| this := constructor; browser := b; pending_opens := []; detached := [] |}.

Definition sample_error : JSError := DOMException "UnknownError" 0.

Definition lesson (n : Z) (text : string) : Lesson := {| id := IdNum n; rest := text |}.

(** Two callers overlap the first initialization; the first open request
    succeeds and the second one fails. *)
Definition overlap_world : World :=
  new_process (new_browser [None; None; Some sample_error] (sample_storage ∅ 1000)).

(** A process start over a new browser whose provider raises no error. *)
Definition quiet_world : World :=
  new_process (new_browser [] (sample_storage ∅ 1000)).

(** The same once [init] has completed. *)
Definition settled_world : World := (init quiet_world).2.

(** A process start in a browser whose open request fails. *)
Definition failing_open_world : World :=
  new_process (new_browser [Some sample_error] (sample_storage ∅ 1000)).

(** A process start in a browser without IndexedDB. *)
Definition fallback_world (items : gmap string JSValue) (capacity : nat) : World :=
  new_process
    {| has_indexedDB := false; database := no_database; faults := []; calls := [];
       localStorage := sample_storage items capacity; console := [] |}.

(** The same with a localStorage that refuses every write with [error]
    (a browser that has storage disabled). *)
Definition refusing_world (items : gmap string JSValue) (error : JSError) : World :=
  new_process
    {| has_indexedDB := false; database := no_database; faults := []; calls := [];
       localStorage :=
         {| ls_items := items; ls_capacity := 1000; ls_write_error := Some error |};
       console := [] |}.

Definition SecurityError : JSError := DOMException "SecurityError" 18.

Definition two_lessons : list Lesson := [lesson 1 "a"; lesson 2 "b"].

(** An initialized transactional world holding [two_lessons], whose next
    request fails. *)
Definition failing_lookup_world : World :=
  with_browser (set_faults [Some sample_error])
    (saveAllLessons two_lessons settled_world).2.

Definition three_lessons : list Lesson := [lesson 2 "b"; lesson 1 "a"; lesson 3 "c"].

(** An initialized instance on the fallback, nothing stored. *)
Definition settled_fallback_world : World := (init (fallback_world ∅ 1000)).2.

(** An initialized transactional instance whose migration has not run
    yet: the legacy entry holds [three_lessons] and the second save of
    the migration is scripted to fail. *)
Definition interrupted_migration_world : World :=
  with_detached (fun _ => [])
    (init (new_process
             (new_browser [None; None; None; Some sample_error]
                (sample_storage {["aiLessons" := VArray three_lessons]} 1000)))).2.

(** The instance of [legacy_world] once [init] has completed, before its
    migration runs. *)
Definition pending_migration_world : World :=
  with_detached (fun _ => [])
    (init (new_process
             (new_browser []
                (sample_storage {["aiLessons" := VArray three_lessons]} 1000)))).2.

Definition duplicated_lessons : list Lesson := [lesson 1 "draft"; lesson 1 "final"].


(** A first page load with IndexedDB over a legacy entry of three lessons. *)
Definition legacy_world : World :=
  new_process (new_browser [] (sample_storage {["aiLessons" := VArray three_lessons]} 1000)).

(** An initialized transactional instance holding [three_lessons] whose
    next request fails. *)
Definition failing_request_world : World :=
  with_browser (set_faults [Some sample_error])
    (call_each saveLesson three_lessons settled_world).2.

(** An initialized instance on the fallback holding [two_lessons] in a
    localStorage of 30 characters. *)
Definition small_fallback_world : World :=
  (init (fallback_world {["aiLessons" := VArray two_lessons]} 30)).2.

(** An initialized transactional instance holding [three_lessons], the
    provider raising no error. *)
Definition stocked_world : World := (call_each saveLesson three_lessons settled_world).2.

(** An initialized instance on the fallback holding [three_lessons]. *)
Definition stocked_fallback_world : World :=
  (call_each saveLesson three_lessons settled_fallback_world).2.

(** A process start over a database that an earlier version of the page
    created at version 0 with a lessons store already holding a record. *)
Definition old_database_world : World :=
  new_process
    {| has_indexedDB := true;
       database := {| db_version := 0;
                      lessons_store := Some {[IdNum 5 := lesson 5 "e"]};
                      metadata_store := None |};
       faults := []; calls := []; localStorage := sample_storage ∅ 1000; console := [] |}.

(** A later page load, already initialized and migrated, whose store holds
    a newer version of lesson 1; the legacy entry is still in localStorage
    and the next request (the lookup of the flag) is scripted to fail. *)
Definition failed_flag_lookup_world : World :=
  with_browser (set_faults [Some sample_error])
    (saveLesson (lesson 1 "newer") (run_detached (init legacy_world).2)).2.

(** * Properties *)

(** ** The model at work *)

Example json_text_length : String.length (JSON_stringify (VArray two_lessons)) = 23.
Proof. reflexivity. Qed.

Example transactional_getAll_in_key_order :
  (getAllLessons (call_each saveLesson three_lessons settled_world).2).1
  = Resolved (VArray [lesson 1 "a"; lesson 2 "b"; lesson 3 "c"]).
Proof. reflexivity. Qed.

Example fallback_getAll_in_array_order :
  (getAllLessons (call_each saveLesson three_lessons settled_fallback_world).2).1
  = Resolved (VArray three_lessons).
Proof. reflexivity. Qed.

Example migration_copies_legacy_in_array_order :
  calls (browser (run_detached (init legacy_world).2))
  = [CallOpen "LessonsDB" 1; MetadataGet "migrated";
     LessonsPut (lesson 2 "b"); LessonsPut (lesson 1 "a"); LessonsPut (lesson 3 "c");
     MetadataPut "migrated" (VBool true)].
Proof. reflexivity. Qed.

Example failed_clear_never_settles :
  (saveAllLessons two_lessons (with_browser (set_faults [Some sample_error]) settled_world)).1
  = Pending.
Proof. reflexivity. Qed.

Example overlapping_callers_observe :
  observed (run [Invoke 1 OpGetAllLessons; Invoke 2 OpGetAllLessons;
                 OpenSettles 1; OpenSettles 2] (start overlap_world))
  = [(1, TransactionalStore); (2, SynchronousFallback)].
Proof. reflexivity. Qed.

(** ** Methods called once [initialized] is true leave the instance alone *)

Lemma frame_refl w : frame w w.
Proof. by repeat split. Qed.

Lemma frame_trans w1 w2 w3 : frame w1 w2 → frame w2 w3 → frame w1 w3.
Proof.
  intros (?&?&?&?&?&?) (?&?&?&?&?&?).
  repeat split; etrans; eauto.
Qed.

Lemma frame_initialized w w' :
  frame w w' → initialized (this w) = true → initialized (this w') = true.
Proof. intros (-> &_). done. Qed.

Lemma frame_backendKind w w' : frame w w' → backendKind w' = backendKind w.
Proof. intros (Ht &_). unfold backendKind. by rewrite Ht. Qed.

Lemma count_opens_add_call c w :
  is_open c = false →
  count_opens (with_browser (add_call c) w) = count_opens w.
Proof.
  intros Hc. unfold count_opens. simpl.
  rewrite filter_app, length_app. simpl.
  rewrite filter_cons, filter_nil. rewrite Hc. simpl. lia.
Qed.

Lemma inert_ret {A} (a : A) : inert (ret a).
Proof. intros w _. apply frame_refl. Qed.

Lemma inert_throw {A} e : inert (@throw A e).
Proof. intros w _. apply frame_refl. Qed.

Lemma inert_never {A} : inert (@never A).
Proof. intros w _. apply frame_refl. Qed.

Lemma inert_bind {A B} (m : M A) (k : A → M B) :
  inert m → (∀ a, inert (k a)) → inert (bind m k).
Proof.
  intros Hm Hk w Hi. unfold bind.
  specialize (Hm w Hi). destruct (m w) as [[a|e|] w1]; simpl in *; try done.
  eapply frame_trans; [done|]. apply Hk. by eapply frame_initialized.
Qed.

Lemma inert_try_catch {A} (body : M A) handler :
  inert body → (∀ e, inert (handler e)) → inert (try_catch body handler).
Proof.
  intros Hm Hk w Hi. unfold try_catch.
  specialize (Hm w Hi). destruct (body w) as [[a|e|] w1]; simpl in *; try done.
  eapply frame_trans; [done|]. apply Hk. by eapply frame_initialized.
Qed.

Lemma inert_for_of {A} (xs : list A) body :
  (∀ x, inert (body x)) → inert (for_of xs body).
Proof.
  intros Hb. induction xs as [|x xs IH]; simpl.
  - apply inert_ret.
  - apply inert_bind; [apply Hb | done].
Qed.

Lemma inert_get_this : inert get_this.
Proof. intros w _. apply frame_refl. Qed.

Lemma inert_console_log text : inert (console_log text).
Proof. intros w _. by repeat split. Qed.

Lemma inert_console_error text e : inert (console_error text e).
Proof. intros w _. by repeat split. Qed.

Lemma inert_getItem key : inert (localStorage_getItem key).
Proof. intros w _. apply frame_refl. Qed.

Lemma inert_setItem key doc : inert (localStorage_setItem key doc).
Proof.
  intros w _. unfold localStorage_setItem.
  destruct (ls_write_error _); [apply frame_refl|].
  case_match; [apply frame_refl|]. by repeat split.
Qed.

Lemma inert_expect_array what doc : inert (expect_array what doc).
Proof. destruct doc; first [apply inert_ret | apply inert_throw]. Qed.

Lemma serve_version c d : db_version (serve c d).2 = db_version d.
Proof. by destruct c. Qed.

Lemma inert_idb_request c : is_open c = false → inert (idb_request c).
Proof.
  intros Hc w _. unfold idb_request.
  destruct (store_present _ _); [|apply frame_refl].
  destruct (next_fault _).
  - repeat split; simpl; try done. by apply count_opens_add_call.
  - destruct (serve c _) as [r d] eqn:Hs. simpl.
    repeat split; simpl; try done.
    + by apply count_opens_add_call.
    + change d with (r, d).2. rewrite <-Hs. apply serve_version.
Qed.

Lemma init_initialized w : initialized (this w) = true → init w = (Resolved true, w).
Proof. intros Hi. unfold init, init_begin. by rewrite Hi. Qed.

Lemma inert_init : inert init.
Proof. intros w Hi. rewrite init_initialized by done. apply frame_refl. Qed.

Create HintDb inert.
#[local] Hint Resolve inert_ret inert_throw inert_never inert_get_this
  inert_console_log inert_console_error inert_getItem inert_setItem
  inert_expect_array inert_init inert_for_of : inert.

Ltac inert_step :=
  match goal with
  | |- inert (bind _ _) => apply inert_bind; [|intros ?]
  | |- inert (try_catch _ _) => apply inert_try_catch; [|intros ?]
  | |- inert (for_of _ _) => apply inert_for_of; intros ?
  | |- inert (idb_request _) => by apply inert_idb_request
  | |- inert (if ?b then _ else _) => destruct b
  | |- inert (match ?x with _ => _ end) => destruct x
  | |- inert _ => by auto with inert
  end.

Lemma inert_saveToLocalStorage key item isArrayItem :
  inert (saveToLocalStorage key item isArrayItem).
Proof. unfold saveToLocalStorage. repeat inert_step. Qed.

Lemma inert_saveLesson lesson : inert (saveLesson lesson).
Proof.
  unfold saveLesson. repeat inert_step. apply inert_saveToLocalStorage.
Qed.

Lemma inert_getAllLessons : inert getAllLessons.
Proof. unfold getAllLessons, parse_or_empty. repeat inert_step. Qed.

Lemma inert_getLesson lessonId : inert (getLesson lessonId).
Proof.
  unfold getLesson. repeat inert_step. apply inert_getAllLessons.
Qed.

Lemma inert_saveAllLessons lessons : inert (saveAllLessons lessons).
Proof.
  unfold saveAllLessons. repeat inert_step. apply inert_saveLesson.
Qed.

Lemma inert_deleteLesson lessonId : inert (deleteLesson lessonId).
Proof.
  unfold deleteLesson. repeat inert_step;
    first [apply inert_getAllLessons | apply inert_saveAllLessons].
Qed.

Lemma inert_saveMetadata key value : inert (saveMetadata key value).
Proof. unfold saveMetadata. repeat inert_step. Qed.

Lemma inert_getMetadata key : inert (getMetadata key).
Proof. unfold getMetadata. repeat inert_step. Qed.

Lemma inert_getStorageInfo : inert getStorageInfo.
Proof.
  unfold getStorageInfo, length_of. repeat inert_step. apply inert_getAllLessons.
Qed.

Lemma inert_migrateFromLocalStorage : inert migrateFromLocalStorage.
Proof.
  unfold migrateFromLocalStorage. repeat inert_step;
    first [apply inert_getMetadata | apply inert_saveLesson | apply inert_saveMetadata].
Qed.

Lemma perform_frame op w : initialized (this w) = true → frame w (perform op w).
Proof.
  intros Hi. destruct op; simpl.
  - by apply inert_saveLesson.
  - by apply inert_getAllLessons.
  - by apply inert_getLesson.
  - by apply inert_deleteLesson.
  - by apply inert_saveAllLessons.
  - by apply inert_saveMetadata.
  - by apply inert_getMetadata.
  - by apply inert_getStorageInfo.
Qed.

(** ** The open request and the event loop *)

Lemma open_settles_this rq w :
  this (open_settles rq w) =
    if open_fails w
    then set_initialized true (set_useIndexedDB false (this w))
    else set_initialized true (set_db (Some rq) (this w)).
Proof.
  unfold open_settles, open_fails. simpl.
  destruct (next_fault (browser w)) as [e|] eqn:Hf; simpl.
  - done.
  - simpl.
    by destruct (dbVersion <? _).
Qed.

Lemma open_settles_initialized rq w : initialized (this (open_settles rq w)) = true.
Proof. rewrite open_settles_this. by destruct (open_fails w). Qed.

Lemma open_settles_count rq w : count_opens (open_settles rq w) = count_opens w.
Proof.
  unfold open_settles. simpl.
  destruct (next_fault _); [done|]. by destruct (dbVersion <? _).
Qed.

Lemma open_settles_pending rq w :
  pending_opens (open_settles rq w) = filter (fun r => r ≠ rq) (pending_opens w).
Proof.
  unfold open_settles. simpl.
  destruct (next_fault _); [done|]. by destruct (dbVersion <? _).
Qed.

(** After an open that succeeded the stored version is the requested one. *)
Lemma open_settles_version rq w :
  open_fails w = false →
  db_version (database (browser (open_settles rq w))) = dbVersion.
Proof.
  unfold open_settles, open_fails. simpl.
  destruct (next_fault (browser w)) as [e|] eqn:Hf; simpl.
  - done.
  - simpl.
    destruct (dbVersion <? _) eqn:Hv; [done|]. intros _. simpl.
    destruct (db_version _ <? dbVersion) eqn:Hu; simpl; [done|].
    apply Nat.ltb_ge in Hv, Hu. unfold dbVersion in *. lia.
Qed.

Lemma init_begin_initialized w :
  initialized (this w) = true → init_begin w = (InitDone, w).
Proof. intros Hi. unfold init_begin. by rewrite Hi. Qed.

Lemma init_begin_opens w :
  initialized (this w) = false → has_indexedDB (browser w) = true →
  init_begin w =
    (InitAwaits (count_opens w + 1),
     with_pending (fun rqs => rqs ++ [count_opens w + 1])
       (with_browser (add_call (CallOpen dbName dbVersion)) w)).
Proof.
  intros Hi Hx. unfold init_begin. rewrite Hi, Hx. simpl.
  assert (count_opens (with_browser (add_call (CallOpen dbName dbVersion)) w)
          = count_opens w + 1) as ->; [|done].
  unfold count_opens. simpl. rewrite filter_app, length_app. done.
Qed.

Lemma run_detached_this w :
  initialized (this w) = true →
  this (run_detached w) = this w ∧ pending_opens (run_detached w) = pending_opens w.
Proof.
  intros Hi. unfold run_detached. destruct (detached w) as [|[] ts] eqn:Hd; [done|].
  simpl. destruct (inert_migrateFromLocalStorage (with_detached (fun _ => ts) w) Hi)
    as (? & ? & _). done.
Qed.

Lemma step_settled ev l :
  initialized (this (world l)) = true →
  pending_opens (world l) = [] →
  this (world (step ev l)) = this (world l) ∧
  pending_opens (world (step ev l)) = [].
Proof.
  intros Hi Hp. destruct ev as [caller op|rq|]; simpl.
  - rewrite init_begin_initialized by done. simpl.
    destruct (perform_frame op (world l) Hi) as (-> & -> & _). done.
  - rewrite Hp. rewrite bool_decide_false by set_solver. done.
  - destruct (run_detached_this (world l) Hi) as [-> ->]. done.
Qed.

Lemma run_settled evs l :
  initialized (this (world l)) = true →
  pending_opens (world l) = [] →
  this (world (run evs l)) = this (world l).
Proof.
  revert l. induction evs as [|ev evs IH]; intros l Hi Hp; [done|].
  simpl. destruct (step_settled ev l Hi Hp) as [Ht Hp'].
  fold (run evs (step ev l)). rewrite IH; [done| |done]. by rewrite Ht.
Qed.

(** C9 (amended): once [initialized] is true no public operation modifies
    the backend choice, and with no open request of an overlapping first
    call still in flight no later event (operations invoked, the detached
    migration, stray settle events) changes the instance fields, hence the
    backend kind, for the rest of the run. *)
Theorem backend_fixed_once_settled (l : Loop) :
  initialized (this (world l)) = true →
  (∀ op, this (perform op (world l)) = this (world l) ∧
         backendKind (perform op (world l)) = backendKind (world l)) ∧
  (pending_opens (world l) = [] →
   ∀ evs, this (world (run evs l)) = this (world l) ∧
          backendKind (world (run evs l)) = backendKind (world l)).
Proof.
  intros Hi. split.
  - intros op. pose proof (perform_frame op (world l) Hi) as Hf.
    split; [apply Hf | by apply frame_backendKind].
  - intros Hp evs. pose proof (run_settled evs l Hi Hp) as Ht.
    split; [done|]. unfold backendKind. by rewrite Ht.
Qed.

Lemma two_calls_overlap w a opa b opb :
  initialized (this w) = false →
  has_indexedDB (browser w) = true →
  run [Invoke a opa; Invoke b opb] (start w) =
    {| world := after_two_calls w;
       awaiting := [(count_opens w + 1, (a, opa)); (count_opens w + 2, (b, opb))];
       observed := [] |}.
Proof.
  intros Hi Hx. simpl. rewrite (init_begin_opens w) by done. simpl.
  rewrite init_begin_opens by done.
  assert (count_opens
            (with_pending (fun rqs => rqs ++ [count_opens w + 1])
               (with_browser (add_call (CallOpen dbName dbVersion)) w))
          = count_opens w + 1) as Hc.
  { unfold count_opens. simpl. rewrite filter_app, length_app. done. }
  unfold after_two_calls. rewrite !Hc.
  by replace (count_opens w + 1 + 1) with (count_opens w + 2); [|lia].
Qed.

Lemma after_two_calls_count w : count_opens (after_two_calls w) = count_opens w + 2.
Proof.
  unfold after_two_calls, count_opens. simpl.
  rewrite !filter_app, !length_app. simpl. lia.
Qed.

Lemma after_two_calls_pending w :
  pending_opens (after_two_calls w)
  = pending_opens w ++ [count_opens w + 1; count_opens w + 2].
Proof.
  unfold after_two_calls. simpl.
  assert (count_opens (with_browser (add_call (CallOpen dbName dbVersion)) w)
          = count_opens w + 1) as Hc.
  { unfold count_opens. simpl. rewrite filter_app, length_app. done. }
  unfold count_opens in *. simpl in *. rewrite Hc.
  rewrite <-app_assoc. simpl. do 3 f_equal. lia.
Qed.

Lemma awaiting_split (r1 r2 : nat) (x y : nat * PublicOp) :
  r1 ≠ r2 →
  filter (fun a : nat * (nat * PublicOp) => a.1 = r1) [(r1, x); (r2, y)] = [(r1, x)] ∧
  filter (fun a : nat * (nat * PublicOp) => a.1 ≠ r1) [(r1, x); (r2, y)] = [(r2, y)].
Proof.
  intros Hne. rewrite !filter_cons, !filter_nil. simpl.
  rewrite !decide_True by done.
  rewrite (decide_False (P := r2 = r1)) by done.
  rewrite (decide_False (P := r1 ≠ r1)) by (intros H; by apply H).
  rewrite (decide_True (P := r2 ≠ r1)) by done.
  done.
Qed.

Lemma first_open_settles w a opa b opb :
  initialized (this w) = false →
  has_indexedDB (browser w) = true →
  step (OpenSettles (count_opens w + 1))
       (run [Invoke a opa; Invoke b opb] (start w)) =
    {| world := perform opa (open_settles (count_opens w + 1) (after_two_calls w));
       awaiting := [(count_opens w + 2, (b, opb))];
       observed :=
         [(a, backendKind (open_settles (count_opens w + 1) (after_two_calls w)))] |}.
Proof.
  intros Hi Hx. rewrite two_calls_overlap by done.
  unfold step. cbn [world awaiting observed].
  rewrite bool_decide_true by (rewrite after_two_calls_pending; set_solver).
  destruct (awaiting_split (count_opens w + 1) (count_opens w + 2) (a, opa) (b, opb))
    as [-> ->]; [lia|].
  done.
Qed.

Lemma second_open_settles w a opa b opb :
  initialized (this w) = false →
  has_indexedDB (browser w) = true →
  let w3 := perform opa (open_settles (count_opens w + 1) (after_two_calls w)) in
  step (OpenSettles (count_opens w + 2))
       (step (OpenSettles (count_opens w + 1))
             (run [Invoke a opa; Invoke b opb] (start w))) =
    {| world := perform opb (open_settles (count_opens w + 2) w3);
       awaiting := [];
       observed :=
         [(a, backendKind (open_settles (count_opens w + 1) (after_two_calls w)));
          (b, backendKind (open_settles (count_opens w + 2) w3))] |}.
Proof.
  intros Hi Hx w3. rewrite first_open_settles by done. fold w3.
  unfold step. cbn [world awaiting observed].
  assert (pending_opens w3
          = filter (fun r => r ≠ count_opens w + 1) (pending_opens (after_two_calls w)))
    as Hp.
  { unfold w3.
    destruct (perform_frame opa (open_settles (count_opens w + 1) (after_two_calls w)))
      as (_ & -> & _); [apply open_settles_initialized|].
    apply open_settles_pending. }
  rewrite bool_decide_true.
  2:{ rewrite Hp, after_two_calls_pending. apply list_elem_of_filter.
      split; [lia | set_solver]. }
  rewrite !filter_cons, !filter_nil. simpl.
  rewrite (decide_True (P := count_opens w + 2 = count_opens w + 2)) by done.
  rewrite (decide_False (P := count_opens w + 2 ≠ count_opens w + 2))
    by (intros H; by apply H).
  done.
Qed.

Lemma perform_after_settle op rq w :
  frame (open_settles rq w) (perform op (open_settles rq w)).
Proof. apply perform_frame, open_settles_initialized. Qed.

Lemma sequential_calls_open_once w a opa b opb :
  initialized (this w) = false →
  has_indexedDB (browser w) = true →
  count_opens
    (world (run [Invoke a opa; OpenSettles (count_opens w + 1); Invoke b opb] (start w)))
  = count_opens w + 1.
Proof.
  intros Hi Hx. simpl. rewrite (init_begin_opens w) by done.
  cbn [world awaiting observed pending_opens with_pending].
  rewrite bool_decide_true by set_solver.
  rewrite !filter_cons, !filter_nil.
  rewrite (decide_True (P := (count_opens w + 1, (a, opa)).1 = count_opens w + 1)) by done.
  cbn [fmap list_fmap foldl resume world awaiting observed snd fst].
  set (w1 := open_settles _ _).
  assert (initialized (this (perform opa w1)) = true) as Hi1.
  { eapply frame_initialized; [apply perform_after_settle|apply open_settles_initialized]. }
  rewrite init_begin_initialized by done.
  cbn [resume world snd].
  destruct (perform_frame opb (perform opa w1) Hi1) as (_ & _ & _ & -> & _).
  destruct (perform_after_settle opa (count_opens w + 1)
    (with_pending (fun rqs => rqs ++ [count_opens w + 1])
       (with_browser (add_call (CallOpen dbName dbVersion)) w)))
    as (_ & _ & _ & Hc & _).
  fold w1 in Hc. rewrite Hc. unfold w1. rewrite open_settles_count.
  unfold count_opens. simpl. rewrite filter_app, length_app. done.
Qed.

Lemma backendKind_after_open rq w :
  backendKind (open_settles rq w) =
    if open_fails w then SynchronousFallback
    else if useIndexedDB (this w) then TransactionalStore else SynchronousFallback.
Proof.
  unfold backendKind. rewrite open_settles_this.
  destruct (open_fails w); [done|]. unfold uses_db. simpl.
  by destruct (useIndexedDB (this w)).
Qed.

(** C1 (amended): [init] memoizes on the completed flag only.  Two calls
    that both arrive before initialization completes each run the open
    primitive (two open attempts, and still two once both have settled);
    a call made after initialization has completed opens nothing (one open
    attempt in all).  The two overlapping callers observe the same backend
    choice provided the second open request does not fail after the first
    one has succeeded. *)
Theorem overlapping_first_calls_each_open w a opa b opb :
  initialized (this w) = false →
  has_indexedDB (browser w) = true →
  let n := count_opens w in
  let l2 := run [Invoke a opa; Invoke b opb] (start w) in
  let l3 := step (OpenSettles (n + 1)) l2 in
  let l4 := step (OpenSettles (n + 2)) l3 in
  count_opens (world l2) = n + 2 ∧
  count_opens (world l4) = n + 2 ∧
  count_opens
    (world (run [Invoke a opa; OpenSettles (n + 1); Invoke b opb] (start w))) = n + 1 ∧
  ((open_fails (world l2) = false → open_fails (world l3) = false) →
   ∃ k, observed l4 = [(a, k); (b, k)]).
Proof.
  intros Hi Hx n l2 l3 l4.
  assert (world l2 = after_two_calls w) as Hl2.
  { unfold l2. by rewrite two_calls_overlap. }
  pose proof (first_open_settles w a opa b opb Hi Hx) as Hl3. fold n l2 l3 in Hl3.
  pose proof (second_open_settles w a opa b opb Hi Hx) as Hl4.
  cbn zeta in Hl4. fold n l2 l3 l4 in Hl4.
  pose proof (perform_after_settle opa (n + 1) (after_two_calls w)) as Hf3.
  repeat split.
  - rewrite Hl2. apply after_two_calls_count.
  - rewrite Hl4. cbn [world].
    destruct (perform_after_settle opb (n + 2)
                (perform opa (open_settles (n + 1) (after_two_calls w))))
      as (_ & _ & _ & -> & _).
    rewrite open_settles_count.
    destruct Hf3 as (_ & _ & _ & -> & _).
    rewrite open_settles_count. apply after_two_calls_count.
  - by apply sequential_calls_open_once.
  - intros Hsame. rewrite Hl4. cbn [observed].
    rewrite Hl2 in Hsame. rewrite Hl3 in Hsame. cbn [world] in Hsame.
    rewrite !backendKind_after_open.
    destruct Hf3 as (Ht & _ & _ & _ & _ & Hv). rewrite Ht.
    rewrite open_settles_this.
    destruct (open_fails (after_two_calls w)) eqn:Hfirst.
    + exists SynchronousFallback. cbn [useIndexedDB set_initialized set_useIndexedDB].
      by destruct (open_fails (perform _ _)).
    + rewrite Hsame by done. cbn [useIndexedDB set_initialized set_db]. eauto.
Qed.

Lemma overlapping_first_calls_each_open_witness :
  let l4 := run [Invoke 1 OpGetAllLessons; Invoke 2 OpGetAllLessons;
                 OpenSettles 1; OpenSettles 2] (start quiet_world) in
  count_opens (world l4) = 2 ∧ ∃ k, observed l4 = [(1, k); (2, k)].
Proof.
  destruct (overlapping_first_calls_each_open quiet_world
              1 OpGetAllLessons 2 OpGetAllLessons eq_refl eq_refl)
    as (_ & H2 & _ & H4).
  split; [exact H2|]. apply H4. intros _. vm_compute. reflexivity.
Defined.

(** C1 as stated fails: two callers overlapping the first initialization
    make the open primitive run twice. *)
Lemma overlapping_first_calls_open_twice :
  ¬ single_open_attempt overlap_world (1, OpGetAllLessons) (2, OpGetAllLessons).
Proof.
  unfold single_open_attempt. intros [H _]. vm_compute in H. discriminate H.
Qed.

Lemma backend_fixed_once_settled_witness :
  let l := start settled_world in
  let evs := [Invoke 1 (OpSaveLesson (lesson 1 "a")); RunDetached;
              Invoke 2 OpGetAllLessons] in
  this (world (run evs l)) = this (world l) ∧
  backendKind (world (run evs l)) = backendKind (world l).
Proof.
  intros l evs.
  destruct (backend_fixed_once_settled l eq_refl) as [_ H].
  apply (H eq_refl evs).
Defined.

(** C9 as stated fails: with [initialized] already true, the late
    [onerror] of a second, overlapping open request turns the backend from
    the transactional store to the fallback. *)
Lemma late_open_error_changes_backend : ¬ backend_never_changes overlap_world.
Proof.
  intros H.
  specialize (H [Invoke 1 OpGetAllLessons; Invoke 2 OpGetAllLessons; OpenSettles 1]
                (OpenSettles 2)).
  vm_compute in H. specialize (H eq_refl). discriminate H.
Qed.

(** ** Initialization absorbs open failures *)

Lemma init_resolves w : (init w).1 = Resolved true.
Proof. unfold init. by destruct (init_begin w) as [[|rq] w1]. Qed.




(** ** The fallback backend *)

Lemma init_sets_initialized w : initialized (this (init w).2) = true.
Proof.
  unfold init, init_begin.
  destruct (initialized (this w)) eqn:Hi; [done|].
  destruct (has_indexedDB (browser w)); simpl; [|done].
  apply open_settles_initialized.
Qed.

Lemma init_localStorage w : localStorage (browser (init w).2) = localStorage (browser w).
Proof.
  unfold init, init_begin.
  destruct (initialized (this w)); [done|].
  destruct (has_indexedDB (browser w)); simpl; [|done].
  unfold open_settles. simpl.
  destruct (next_fault _); [done|]. by destruct (dbVersion <? _).
Qed.

Lemma init_eq w : init w = (Resolved true, (init w).2).
Proof. pose proof (init_resolves w). destruct (init w) as [r w1]. simpl in *. by subst. Qed.

Lemma init_twice w : init (init w).2 = (Resolved true, (init w).2).
Proof. apply init_initialized, init_sets_initialized. Qed.

Lemma uses_db_fallback w : backendKind w = SynchronousFallback → uses_db (this w) = false.
Proof. unfold backendKind. by destruct (uses_db (this w)). Qed.

Lemma uses_db_transactional w : backendKind w = TransactionalStore → uses_db (this w) = true.
Proof. unfold backendKind. by destruct (uses_db (this w)). Qed.

(** On the fallback [saveAllLessons] is one [setItem] under [try]. *)
Lemma saveAllLessons_fallback lessons w :
  backendKind (init w).2 = SynchronousFallback →
  saveAllLessons lessons w =
    try_catch
      (bind (localStorage_setItem "aiLessons" (VArray lessons)) (fun _ => ret true))
      (fun e => if is_quota_error e then throw (new_Error quota_message_lesson)
                else throw e)
      (init w).2.
Proof.
  intros Hk. unfold saveAllLessons at 1. unfold bind at 1. rewrite init_eq.
  unfold bind at 1. unfold get_this at 1. cbn [fst snd].
  by rewrite (uses_db_fallback _ Hk).
Qed.

Lemma getAllLessons_fallback w :
  backendKind (init w).2 = SynchronousFallback →
  getAllLessons w = (Resolved (parse_or_empty (legacy_entry w)), (init w).2).
Proof.
  intros Hk. unfold getAllLessons, bind. rewrite init_eq.
  unfold get_this. rewrite (uses_db_fallback _ Hk).
  unfold localStorage_getItem, ret, legacy_entry. by rewrite init_localStorage.
Qed.

Lemma saveAllLessons_fallback_fails w lessons :
  backendKind (init w).2 = SynchronousFallback →
  let s := localStorage (browser w) in
  (ls_write_error s = None →
   ls_capacity s < String.length (JSON_stringify (VArray lessons)) →
   saveAllLessons lessons w = (Rejected (new_Error quota_message_lesson), (init w).2)) ∧
  (∀ e, ls_write_error s = Some e →
        saveAllLessons lessons w =
          (Rejected (if is_quota_error e then new_Error quota_message_lesson else e),
           (init w).2)).
Proof.
  intros Hk s. rewrite saveAllLessons_fallback by done.
  unfold try_catch, bind, localStorage_setItem. rewrite init_localStorage. fold s.
  split.
  - intros -> Hc. apply Nat.ltb_lt in Hc. rewrite Hc.
    by change (is_quota_error QuotaExceededError) with true.
  - intros e ->. by destruct (is_quota_error e).
Qed.

(** C7: on the fallback, a payload whose text is larger than the capacity
    makes [saveAllLessons] fail with the quota error ([new Error] with the
    user-facing message) and store nothing: the world, hence the value
    stored before, is as [init] left it.  An error of [setItem] that is not
    a quota error is re-thrown as it is; one that carries the quota name or
    code is translated as well. *)
Theorem saveAllLessons_quota_exceeded w lessons :
  backendKind (init w).2 = SynchronousFallback →
  let s := localStorage (browser w) in
  (ls_write_error s = None →
   ls_capacity s < String.length (JSON_stringify (VArray lessons)) →
   saveAllLessons lessons w = (Rejected (new_Error quota_message_lesson), (init w).2) ∧
   legacy_entry (saveAllLessons lessons w).2 = legacy_entry w) ∧
  (∀ e, ls_write_error s = Some e →
        saveAllLessons lessons w =
          (Rejected (if is_quota_error e then new_Error quota_message_lesson else e),
           (init w).2)).
Proof.
  intros Hk s. destruct (saveAllLessons_fallback_fails w lessons Hk) as [Hq He].
  split; [|done]. intros Hw Hc. rewrite (Hq Hw Hc). split; [done|].
  unfold legacy_entry. cbn [snd]. by rewrite init_localStorage.
Qed.

Lemma saveAllLessons_quota_exceeded_witness :
  (let w := (saveAllLessons two_lessons
               (fallback_world {["aiLessons" := VArray two_lessons]} 30)).2 in
   saveAllLessons (two_lessons ++ [lesson 3 "c"]) w =
     (Rejected (new_Error quota_message_lesson), w) ∧
   legacy_entry (saveAllLessons (two_lessons ++ [lesson 3 "c"]) w).2
   = Some (VArray two_lessons)) ∧
  (let w := refusing_world ∅ SecurityError in
   saveAllLessons two_lessons w = (Rejected SecurityError, (init w).2)).
Proof.
  split.
  - intros w.
    destruct (saveAllLessons_quota_exceeded w (two_lessons ++ [lesson 3 "c"]) eq_refl)
      as [H _].
    apply H; [reflexivity|]. vm_compute. lia.
  - intros w.
    destruct (saveAllLessons_quota_exceeded w two_lessons eq_refl) as [_ H].
    apply (H SecurityError eq_refl).
Defined.

Lemma getAllLessons_settled w :
  backendKind (init w).2 = SynchronousFallback →
  getAllLessons (init w).2 = (Resolved (parse_or_empty (legacy_entry w)), (init w).2).
Proof.
  intros Hk. rewrite getAllLessons_fallback by (by rewrite init_twice).
  rewrite init_twice. cbn [snd]. unfold legacy_entry. by rewrite init_localStorage.
Qed.

Lemma saveAllLessons_settled lessons w :
  saveAllLessons lessons (init w).2 = saveAllLessons lessons w.
Proof.
  unfold saveAllLessons, bind. by rewrite init_twice, init_eq.
Qed.

(** C10: on the fallback [deleteLesson] is the read of all lessons, the
    filter on the id and [saveAllLessons] of the filtered array; it
    therefore fails as [saveAllLessons] does: with the quota error in a
    store that accepts no text at all, and with any other error of
    [setItem] as it is. *)
Theorem deleteLesson_fallback_resaves lessonId :
  (∀ w, initialized (this w) = true →
        backendKind w = SynchronousFallback →
        deleteLesson lessonId w = delete_as_read_filter_resave lessonId w) ∧
  (∀ w, backendKind (init w).2 = SynchronousFallback →
        deleteLesson lessonId w
        = bind init (fun _ => delete_as_read_filter_resave lessonId) w) ∧
  (∀ w items,
     backendKind (init w).2 = SynchronousFallback →
     parse_or_empty (legacy_entry w) = VArray items →
     deleteLesson lessonId w
     = saveAllLessons (filter (fun l => id l ≠ lessonId) items) w) ∧
  (∃ w, backendKind (init w).2 = SynchronousFallback ∧
        deleteLesson lessonId w
        = (Rejected (new_Error quota_message_lesson), (init w).2)) ∧
  (∀ w items e,
     backendKind (init w).2 = SynchronousFallback →
     parse_or_empty (legacy_entry w) = VArray items →
     ls_write_error (localStorage (browser w)) = Some e →
     is_quota_error e = false →
     deleteLesson lessonId w = (Rejected e, (init w).2)).
Proof.
  assert (∀ w items,
     backendKind (init w).2 = SynchronousFallback →
     parse_or_empty (legacy_entry w) = VArray items →
     deleteLesson lessonId w
     = saveAllLessons (filter (fun l => id l ≠ lessonId) items) w) as Hresave.
  { intros w items Hk Hitems. unfold deleteLesson. unfold bind at 1. rewrite init_eq.
    unfold bind at 1. unfold get_this at 1. cbn [fst snd].
    rewrite (uses_db_fallback _ Hk).
    unfold bind at 1. rewrite getAllLessons_settled by done. rewrite Hitems.
    unfold bind at 1. cbn [expect_array ret]. apply saveAllLessons_settled. }
  assert (∀ w, backendKind (init w).2 = SynchronousFallback →
        deleteLesson lessonId w
        = bind init (fun _ => delete_as_read_filter_resave lessonId) w) as Hsame.
  { intros w Hk. unfold deleteLesson, delete_as_read_filter_resave, bind.
    rewrite init_eq. unfold get_this. rewrite (uses_db_fallback _ Hk).
    rewrite getAllLessons_settled by done.
    by destruct (parse_or_empty (legacy_entry w)). }
  split; [|split; [done|split; [done|split]]].
  - intros w Hi Hk. rewrite Hsame by (by rewrite init_initialized).
    unfold bind at 1. by rewrite init_initialized.
  - exists (fallback_world ∅ 0). split; [done|].
    rewrite (Hresave _ []) by done.
    destruct (saveAllLessons_fallback_fails (fallback_world ∅ 0)
                (filter (fun l => id l ≠ lessonId) []) eq_refl) as [H _].
    rewrite H; [done|done|vm_compute; lia].
  - intros w items e Hk Hitems He Hq. rewrite (Hresave _ items) by done.
    destruct (saveAllLessons_fallback_fails w
                (filter (fun l => id l ≠ lessonId) items) Hk) as [_ H].
    rewrite (H e He). by rewrite Hq.
Qed.

Lemma deleteLesson_fallback_resaves_witness :
  let w := fallback_world {["aiLessons" := VArray two_lessons]} 1000 in
  deleteLesson (IdNum 1) (init w).2
  = delete_as_read_filter_resave (IdNum 1) (init w).2 ∧
  deleteLesson (IdNum 1) w
  = bind init (fun _ => delete_as_read_filter_resave (IdNum 1)) w ∧
  deleteLesson (IdNum 1) w = saveAllLessons [lesson 2 "b"] w ∧
  deleteLesson (IdNum 1) (refusing_world {["aiLessons" := VArray two_lessons]} SecurityError)
  = (Rejected SecurityError,
     (init (refusing_world {["aiLessons" := VArray two_lessons]} SecurityError)).2).
Proof.
  intros w.
  destruct (deleteLesson_fallback_resaves (IdNum 1)) as (H0 & H1 & H2 & _ & H4).
  split; [by apply H0|]. split; [by apply H1|]. split.
  - by apply (H2 w two_lessons).
  - by apply (H4 _ two_lessons).
Defined.

(** ** Point lookup *)

Lemma idb_request_error c w e :
  store_present c (database (browser w)) = true →
  next_fault (browser w) = Some e →
  idb_request c w = (Resolved (OnError e), with_browser (fun b => pop_fault (add_call c b)) w).
Proof.
  intros Hs Hf. unfold idb_request. rewrite Hs.
  change (next_fault (browser (with_browser (add_call c) w))) with (next_fault (browser w)).
  by rewrite Hf.
Qed.

Lemma idb_request_success c w :
  store_present c (database (browser w)) = true →
  next_fault (browser w) = None →
  idb_request c w = (Resolved (OnSuccess (serve c (database (browser w))).1), after_request c w).
Proof.
  intros Hs Hf. unfold idb_request. rewrite Hs.
  change (next_fault (browser (with_browser (add_call c) w))) with (next_fault (browser w)).
  rewrite Hf.
  change (database (browser (with_browser (add_call c) w))) with (database (browser w)).
  unfold after_request, with_browser. cbn [this browser pending_opens detached database].
  by destruct (serve c (database (browser w))).
Qed.

Lemma find_lesson_absent lessonId (items : list Lesson) :
  (∀ l, l ∈ items → id l ≠ lessonId) → find_lesson lessonId items = VUndefined.
Proof.
  intros Habs. unfold find_lesson.
  assert (list_find (fun l => id l = lessonId) items = None) as ->; [|done].
  apply list_find_None, Forall_forall. auto.
Qed.

(** C8: [getLesson] of an id the store does not hold resolves with a
    "not found" value ([undefined], or [null] when the lookup fails) under
    either backend, and on the transactional backend a lookup error
    resolves with [null] instead of rejecting. *)
Theorem getLesson_not_found w lessonId :
  (store_lacks (init w).2 lessonId →
   ∃ v, (getLesson lessonId w).1 = Resolved v ∧ not_found v) ∧
  (backendKind (init w).2 = TransactionalStore →
   is_Some (lessons_store (database (browser (init w).2))) →
   ∀ e, next_fault (browser (init w).2) = Some e →
        (getLesson lessonId w).1 = Resolved VNull).
Proof.
  pose proof (init_eq w) as Hinit.
  pose proof (getAllLessons_settled w) as Hall.
  set (w1 := (init w).2) in *.
  unfold getLesson, bind. rewrite Hinit. unfold get_this. split.
  - unfold store_lacks. destruct (backendKind w1) eqn:Hk.
    + rewrite (uses_db_transactional _ Hk). intros (m & Hm & Hnone).
      assert (store_present (LessonsGet lessonId) (database (browser w1)) = true)
        as Hs by (simpl; rewrite Hm; by apply bool_decide_eq_true).
      destruct (next_fault (browser w1)) as [e|] eqn:Hf.
      * rewrite (idb_request_error _ _ e) by done. exists VNull. by split; [|right].
      * rewrite idb_request_success by done. simpl. rewrite Hm. simpl. rewrite Hnone.
        exists VUndefined. by split; [|left].
    + rewrite (uses_db_fallback _ Hk). intros (items & Hitems & Habs).
      rewrite Hall by done.
      assert (legacy_entry w = legacy_entry w1) as ->
        by (unfold legacy_entry, w1; by rewrite init_localStorage).
      rewrite Hitems. simpl. rewrite find_lesson_absent by done.
      exists VUndefined. by split; [|left].
  - intros Hk [m Hm] e Hf. rewrite (uses_db_transactional _ Hk).
    rewrite (idb_request_error _ _ e); [done| |done].
    simpl. rewrite Hm. by apply bool_decide_eq_true.
Qed.

Lemma getLesson_not_found_witness :
  (∃ v, (getLesson (IdNum 7)
           (fallback_world {["aiLessons" := VArray two_lessons]} 1000)).1 = Resolved v
        ∧ not_found v) ∧
  (getLesson (IdNum 1) failing_lookup_world).1 = Resolved VNull.
Proof.
  split.
  - apply getLesson_not_found. exists two_lessons. split; [reflexivity|].
    intros l Hl. apply list_elem_of_In in Hl. simpl in Hl.
    destruct Hl as [<-|[<-|[]]]; discriminate.
  - destruct (getLesson_not_found failing_lookup_world (IdNum 1)) as [_ H].
    apply (H eq_refl (mk_is_Some _ _ eq_refl) sample_error eq_refl).
Defined.

(** ** The lessons store of the transactional backend *)

Lemma all_records_perm (m : gmap LessonId Lesson) : all_records m ≡ₚ (map_to_list m).*2.
Proof. apply merge_sort_Permutation. Qed.

Lemma all_records_length (m : gmap LessonId Lesson) : length (all_records m) = size m.
Proof.
  rewrite (Permutation_length (all_records_perm m)).
  by rewrite length_fmap, length_map_to_list.
Qed.

Lemma insert_all_fresh (lessons : list Lesson) (m : gmap LessonId Lesson) :
  NoDup (id <$> lessons) →
  (∀ l, l ∈ lessons → m !! id l = None) →
  (map_to_list (insert_all lessons m)).*2 ≡ₚ lessons ++ (map_to_list m).*2.
Proof.
  revert m. induction lessons as [|l lessons IH]; intros m Hnd Hfresh; [done|].
  rewrite fmap_cons in Hnd. apply NoDup_cons in Hnd as [Hl Hnd].
  unfold insert_all. simpl. fold (insert_all lessons (<[id l:=l]> m)).
  rewrite IH; [|done|].
  - rewrite map_to_list_insert by (apply Hfresh; left).
    simpl. by rewrite <-Permutation_middle.
  - intros l' Hl'. rewrite lookup_insert_ne.
    + apply Hfresh. by right.
    + intros Heq. apply Hl. rewrite Heq. by apply list_elem_of_fmap_2.
Qed.

Lemma after_request_put l w m :
  lessons_store (database (browser w)) = Some m →
  lessons_store (database (browser (after_request (LessonsPut l) w)))
  = Some (<[id l:=l]> m).
Proof. intros Hm. simpl. by rewrite Hm. Qed.

(** A save on the transactional backend whose request does not fail. *)
Lemma saveLesson_transactional l w m :
  initialized (this w) = true →
  backendKind w = TransactionalStore →
  lessons_store (database (browser w)) = Some m →
  next_fault (browser w) = None →
  saveLesson l w = (Resolved true, after_request (LessonsPut l) w).
Proof.
  intros Hi Hk Hm Hf. unfold saveLesson, bind. rewrite init_initialized by done.
  unfold get_this. rewrite (uses_db_transactional _ Hk).
  rewrite idb_request_success; [done| |done].
  simpl. rewrite Hm. by apply bool_decide_eq_true.
Qed.

Lemma healthy_next_fault w : healthy w → next_fault (browser w) = None.
Proof. unfold healthy, next_fault. by intros ->. Qed.

Lemma healthy_after_request c w : healthy w → healthy (after_request c w).
Proof. unfold healthy. simpl. by intros ->. Qed.

Lemma call_each_saveLesson_transactional lessons w m :
  initialized (this w) = true →
  backendKind w = TransactionalStore →
  healthy w →
  lessons_store (database (browser w)) = Some m →
  call_each saveLesson lessons w
  = (const (Resolved true) <$> lessons, put_all lessons w) ∧
  this (put_all lessons w) = this w ∧
  healthy (put_all lessons w) ∧
  lessons_store (database (browser (put_all lessons w))) = Some (insert_all lessons m).
Proof.
  revert w m. induction lessons as [|l lessons IH]; intros w m Hi Hk Hh Hm; [done|].
  simpl. rewrite (saveLesson_transactional l w m) by auto using healthy_next_fault.
  destruct (IH (after_request (LessonsPut l) w) (<[id l:=l]> m))
    as (-> & Ht & Hh' & Hm'); try done.
  - by apply healthy_after_request.
  - by apply after_request_put.
Qed.

Lemma getAllLessons_transactional w m :
  initialized (this w) = true →
  backendKind w = TransactionalStore →
  lessons_store (database (browser w)) = Some m →
  next_fault (browser w) = None →
  getAllLessons w = (Resolved (VArray (all_records m)), after_request LessonsGetAll w).
Proof.
  intros Hi Hk Hm Hf. unfold getAllLessons, bind. rewrite init_initialized by done.
  unfold get_this. rewrite (uses_db_transactional _ Hk).
  rewrite idb_request_success; [|simpl; rewrite Hm; by apply bool_decide_eq_true|done].
  simpl. by rewrite Hm.
Qed.

Lemma getLesson_transactional w m lessonId :
  initialized (this w) = true →
  backendKind w = TransactionalStore →
  lessons_store (database (browser w)) = Some m →
  next_fault (browser w) = None →
  getLesson lessonId w
  = (Resolved (from_option VLesson VUndefined (m !! lessonId)),
     after_request (LessonsGet lessonId) w).
Proof.
  intros Hi Hk Hm Hf. unfold getLesson, bind. rewrite init_initialized by done.
  unfold get_this. rewrite (uses_db_transactional _ Hk).
  rewrite idb_request_success; [|simpl; rewrite Hm; by apply bool_decide_eq_true|done].
  simpl. by rewrite Hm.
Qed.

(** ** The legacy array of the fallback backend *)

Lemma legacy_entry_stored doc w : legacy_entry (stored doc w) = Some doc.
Proof. unfold legacy_entry. simpl. apply lookup_insert_eq. Qed.

(** A save on the fallback that resolves has written the upserted array. *)
Lemma saveLesson_fallback_resolved l w items :
  initialized (this w) = true →
  backendKind w = SynchronousFallback →
  parse_or_empty (legacy_entry w) = VArray items →
  is_resolved (saveLesson l w).1 →
  saveLesson l w = (Resolved true, stored (VArray (upsert l items)) w).
Proof.
  intros Hi Hk Hitems. unfold saveLesson, bind. rewrite init_initialized by done.
  unfold get_this. rewrite (uses_db_fallback _ Hk).
  unfold saveToLocalStorage, try_catch, bind, localStorage_getItem.
  fold (legacy_entry w). rewrite Hitems. cbn [expect_array ret].
  fold (upsert l items). unfold localStorage_setItem.
  destruct (ls_write_error _) as [e|]; simpl.
  { by destruct (is_quota_error e). }
  destruct (_ <? _); simpl; [|done].
  by change (is_quota_error QuotaExceededError) with true.
Qed.

Lemma findIndex_None key (array : list Lesson) :
  (∀ l, l ∈ array → id l ≠ key) → findIndex key array = None.
Proof.
  intros Habs. unfold findIndex.
  assert (list_find (fun i => id i = key) array = None) as ->; [|done].
  apply list_find_None, Forall_forall. auto.
Qed.

Lemma upsert_fresh l (array : list Lesson) :
  (∀ l', l' ∈ array → id l' ≠ id l) → upsert l array = array ++ [l].
Proof. intros Habs. unfold upsert. by rewrite findIndex_None. Qed.

Lemma call_each_saveLesson_fallback lessons w items :
  initialized (this w) = true →
  backendKind w = SynchronousFallback →
  parse_or_empty (legacy_entry w) = VArray items →
  NoDup (id <$> (items ++ lessons)) →
  Forall is_resolved (call_each saveLesson lessons w).1 →
  let w' := (call_each saveLesson lessons w).2 in
  this w' = this w ∧ legacy_entry w' = (if lessons is [] then legacy_entry w
                                        else Some (VArray (items ++ lessons))).
Proof.
  revert w items. induction lessons as [|l lessons IH]; intros w items Hi Hk Hitems Hnd;
    [done|].
  simpl. destruct (saveLesson l w) as [r w1] eqn:Hsave.
  destruct (call_each saveLesson lessons w1) as [rs w2] eqn:Hrest. simpl.
  intros Hres. apply Forall_cons in Hres as [Hr Hrs].
  rewrite (saveLesson_fallback_resolved l w items) in Hsave
    by (try done; by rewrite Hsave).
  injection Hsave as <- <-.
  rewrite upsert_fresh in Hrest.
  2:{ intros l' Hl' Heq. rewrite fmap_app, fmap_cons in Hnd.
      apply NoDup_app in Hnd as (_ & Hdisj & _).
      apply (Hdisj (id l')); [by apply list_elem_of_fmap_2|]. rewrite Heq. by left. }
  specialize (IH (stored (VArray (items ++ [l])) w) (items ++ [l])).
  rewrite Hrest in IH. simpl in IH.
  destruct IH as [Ht He]; try done.
  - by rewrite legacy_entry_stored.
  - by rewrite <-app_assoc.
  - split; [done|]. rewrite He. rewrite legacy_entry_stored.
    destruct lessons; [done|]. by rewrite <-app_assoc.
Qed.

Lemma getAllLessons_fallback_initialized w :
  initialized (this w) = true →
  backendKind w = SynchronousFallback →
  getAllLessons w = (Resolved (parse_or_empty (legacy_entry w)), w).
Proof.
  intros Hi Hk. rewrite getAllLessons_fallback; rewrite init_initialized; done.
Qed.

(** ** Saving and reading back *)

(** C5: on an initialized instance whose store is empty, after a sequence
    of [saveLesson] calls with pairwise distinct ids that all resolved (the
    transactional provider raising no error), [getAllLessons] returns
    exactly the records saved, up to order; under either backend. *)
Theorem saved_lessons_are_returned w lessons :
  initialized (this w) = true →
  healthy w →
  store_empty w →
  NoDup (id <$> lessons) →
  Forall is_resolved (call_each saveLesson lessons w).1 →
  ∃ returned,
    (getAllLessons (call_each saveLesson lessons w).2).1 = Resolved (VArray returned) ∧
    returned ≡ₚ lessons.
Proof.
  intros Hi Hh Hempty Hnd Hres. unfold store_empty in Hempty.
  destruct (backendKind w) eqn:Hk.
  - destruct (call_each_saveLesson_transactional lessons w ∅) as (Hc & Ht & Hh' & Hm);
      try done.
    rewrite Hc. cbn [snd].
    rewrite (getAllLessons_transactional _ (insert_all lessons ∅)); try done.
    + eexists. split; [done|]. rewrite all_records_perm.
      rewrite insert_all_fresh by done.
      by rewrite map_to_list_empty, app_nil_r.
    + by rewrite Ht.
    + unfold backendKind. by rewrite Ht, (uses_db_transactional _ Hk).
    + by apply healthy_next_fault.
  - assert (parse_or_empty (legacy_entry w) = VArray []) as Hitems
      by (by destruct Hempty as [-> | ->]).
    destruct (call_each_saveLesson_fallback lessons w [] Hi Hk Hitems Hnd Hres)
      as [Ht He].
    rewrite getAllLessons_fallback_initialized.
    + cbn [fst]. rewrite He. destruct lessons; [|by eexists]. rewrite Hitems. by eexists.
    + by rewrite Ht.
    + unfold backendKind. by rewrite Ht, (uses_db_fallback _ Hk).
Qed.

Lemma saved_lessons_are_returned_witness :
  (∃ returned,
     (getAllLessons (call_each saveLesson three_lessons settled_world).2).1
     = Resolved (VArray returned) ∧ returned ≡ₚ three_lessons) ∧
  (∃ returned,
     (getAllLessons (call_each saveLesson three_lessons settled_fallback_world).2).1
     = Resolved (VArray returned) ∧ returned ≡ₚ three_lessons).
Proof.
  split.
  - apply (saved_lessons_are_returned settled_world three_lessons);
      [reflexivity | reflexivity | reflexivity | | ].
    + apply (bool_decide_unpack _). vm_compute. exact I.
    + vm_compute. repeat constructor.
  - apply (saved_lessons_are_returned settled_fallback_world three_lessons);
      [reflexivity | reflexivity | left; reflexivity | | ].
    + apply (bool_decide_unpack _). vm_compute. exact I.
    + vm_compute. repeat constructor.
Defined.

Lemma getLesson_fallback_initialized w items lessonId :
  initialized (this w) = true →
  backendKind w = SynchronousFallback →
  parse_or_empty (legacy_entry w) = VArray items →
  getLesson lessonId w = (Resolved (find_lesson lessonId items), w).
Proof.
  intros Hi Hk Hitems. unfold getLesson, bind. rewrite init_initialized by done.
  unfold get_this. rewrite (uses_db_fallback _ Hk).
  rewrite getAllLessons_fallback_initialized by done. by rewrite Hitems.
Qed.




(** ** Migration *)

Lemma settles_ret {A} (a : A) : settles (ret a).
Proof. by intros w. Qed.

Lemma settles_throw {A} e : settles (@throw A e).
Proof. by intros w. Qed.

Lemma settles_bind {A B} (m : M A) (k : A → M B) :
  settles m → (∀ a, settles (k a)) → settles (bind m k).
Proof.
  intros Hm Hk w. unfold bind. specialize (Hm w).
  destruct (m w) as [[a|e|] w1]; simpl in *; [apply Hk|done|done].
Qed.

Lemma settles_try_catch {A} (body : M A) handler :
  settles body → (∀ e, settles (handler e)) → settles (try_catch body handler).
Proof.
  intros Hm Hk w. unfold try_catch. specialize (Hm w).
  destruct (body w) as [[a|e|] w1]; simpl in *; [done|apply Hk|done].
Qed.

Lemma settles_for_of {A} (xs : list A) body :
  (∀ x, settles (body x)) → settles (for_of xs body).
Proof.
  intros Hb. induction xs as [|x xs IH]; simpl.
  - apply settles_ret.
  - apply settles_bind; [apply Hb | done].
Qed.

Lemma settles_init : settles init.
Proof. intros w. by rewrite init_resolves. Qed.

Lemma settles_idb_request c : settles (idb_request c).
Proof.
  intros w. unfold idb_request. destruct (store_present _ _); [|done].
  destruct (next_fault _); [done|]. by destruct (serve _ _).
Qed.

Lemma settles_setItem key doc : settles (localStorage_setItem key doc).
Proof.
  intros w. unfold localStorage_setItem.
  destruct (ls_write_error _); [done|]. by destruct (_ <? _).
Qed.

Lemma settles_expect_array what doc : settles (expect_array what doc).
Proof. by destruct doc. Qed.

Lemma settles_update_browser f : settles (update_browser f).
Proof. by intros w. Qed.

Ltac settles_step :=
  match goal with
  | |- settles (bind _ _) => apply settles_bind; [|intros ?]
  | |- settles (try_catch _ _) => apply settles_try_catch; [|intros ?]
  | |- settles (for_of _ _) => apply settles_for_of; intros ?
  | |- settles (idb_request _) => apply settles_idb_request
  | |- settles init => apply settles_init
  | |- settles (ret _) => apply settles_ret
  | |- settles (throw _) => apply settles_throw
  | |- settles (localStorage_setItem _ _) => apply settles_setItem
  | |- settles (expect_array _ _) => apply settles_expect_array
  | |- settles (if ?b then _ else _) => destruct b
  | |- settles (match ?x with _ => _ end) => destruct x
  | |- settles _ => by intros ?
  end.

Lemma settles_saveLesson lesson : settles (saveLesson lesson).
Proof. unfold saveLesson, saveToLocalStorage. repeat settles_step. Qed.

Lemma settles_getMetadata key : settles (getMetadata key).
Proof. unfold getMetadata. repeat settles_step. Qed.

Lemma settles_saveMetadata key value : settles (saveMetadata key value).
Proof. unfold saveMetadata. repeat settles_step. Qed.

(** [migrateFromLocalStorage] resolves in every world: a rejection inside
    is caught and logged, and nothing inside stays pending. *)
Lemma migrate_resolves w : (migrateFromLocalStorage w).1 = Resolved tt.
Proof.
  unfold migrateFromLocalStorage, try_catch.
  match goal with |- context [let (_, _) := ?body w in _] =>
    assert (settles body) as Hs end.
  { repeat settles_step;
      first [apply settles_getMetadata | apply settles_saveLesson
            | apply settles_saveMetadata]. }
  specialize (Hs w).
  match goal with |- context [let (_, _) := ?body w in _] =>
    destruct (body w) as [[[]|e|] w1] end; done.
Qed.

Lemma next_fault_at b : next_fault b = fault_at (faults b) 0.
Proof. unfold next_fault, fault_at. by destruct (faults b). Qed.

Lemma fault_at_tail fs i : fault_at (tail fs) i = fault_at fs (S i).
Proof. by destruct fs. Qed.

Lemma fault_at_drop fs n i : fault_at (drop n fs) i = fault_at fs (n + i).
Proof. unfold fault_at. by rewrite lookup_drop. Qed.

Lemma drop_tail {A} n (xs : list A) : drop n (tail xs) = drop (S n) xs.
Proof. destruct xs; [simpl; by rewrite drop_nil|done]. Qed.

Lemma put_all_cons l lessons w :
  put_all (l :: lessons) w = put_all lessons (after_request (LessonsPut l) w).
Proof. done. Qed.

Lemma put_all_eq lessons w : put_all lessons w = with_browser (put_all_browser lessons) w.
Proof.
  revert w. induction lessons as [|l lessons IH]; intros w.
  - destruct w as [t b p dt].
    unfold put_all, with_browser, put_all_browser. simpl. f_equal.
    destruct b as [x d fs cs s c]. simpl. rewrite app_nil_r. f_equal.
    destruct d as [v [ls|] md]; done.
  - rewrite put_all_cons, IH. destruct w as [t b p dt].
    unfold with_browser, put_all_browser, after_request. simpl. f_equal.
    destruct b as [x d fs cs s c]. simpl. rewrite <-app_assoc, drop_tail. f_equal.
    destruct d as [v [ls|] md]; done.
Qed.

Lemma put_all_this lessons w : this (put_all lessons w) = this w.
Proof. by rewrite put_all_eq. Qed.

Lemma put_all_lessons lessons w m :
  lessons_store (database (browser w)) = Some m →
  lessons_store (database (browser (put_all lessons w))) = Some (insert_all lessons m).
Proof. intros Hm. rewrite put_all_eq. simpl. by rewrite Hm. Qed.

Lemma put_all_faults lessons w :
  faults (browser (put_all lessons w)) = drop (length lessons) (faults (browser w)).
Proof. by rewrite put_all_eq. Qed.

Lemma for_of_saveLesson_all lessons w m :
  initialized (this w) = true →
  backendKind w = TransactionalStore →
  lessons_store (database (browser w)) = Some m →
  (∀ i, i < length lessons → fault_at (faults (browser w)) i = None) →
  for_of lessons save_and_continue w = (Resolved tt, put_all lessons w).
Proof.
  revert w m. induction lessons as [|l lessons IH]; intros w m Hi Hk Hm Hq; [done|].
  simpl. unfold bind at 1. unfold save_and_continue at 1. unfold bind at 1.
  rewrite (saveLesson_transactional l w m); try done.
  - cbn [ret]. apply (IH _ (<[id l:=l]> m)); try done.
    + by apply after_request_put.
    + intros i Hlt. simpl. rewrite fault_at_tail. apply Hq. simpl. lia.
  - rewrite next_fault_at. apply Hq. simpl. lia.
Qed.

Lemma for_of_saveLesson_fails pre r post e w m :
  initialized (this w) = true →
  backendKind w = TransactionalStore →
  lessons_store (database (browser w)) = Some m →
  (∀ i, i < length pre → fault_at (faults (browser w)) i = None) →
  fault_at (faults (browser w)) (length pre) = Some e →
  for_of (pre ++ r :: post) save_and_continue w =
    (Rejected e,
     with_browser
       (fun b => add_console (ConsoleError "Failed to save lesson to IndexedDB:" (Some e))
                   (pop_fault (add_call (LessonsPut r) b)))
       (put_all pre w)).
Proof.
  revert w m. induction pre as [|l pre IH]; intros w m Hi Hk Hm Hq He.
  - simpl. unfold bind at 1. unfold save_and_continue at 1. unfold bind at 1.
    unfold saveLesson, bind. rewrite init_initialized by done.
    unfold get_this. rewrite (uses_db_transactional _ Hk).
    rewrite (idb_request_error _ _ e); [done| |by rewrite next_fault_at].
    simpl. rewrite Hm. by apply bool_decide_eq_true.
  - simpl. unfold bind at 1. unfold save_and_continue at 1. unfold bind at 1.
    rewrite (saveLesson_transactional l w m); try done.
    + cbn [ret]. apply (IH _ (<[id l:=l]> m)); try done.
      * by apply after_request_put.
      * intros i Hlt. simpl. rewrite fault_at_tail. apply Hq. simpl. lia.
      * simpl. by rewrite fault_at_tail.
    + rewrite next_fault_at. apply Hq. simpl. lia.
Qed.

Lemma getMetadata_transactional key w md :
  initialized (this w) = true →
  backendKind w = TransactionalStore →
  metadata_store (database (browser w)) = Some md →
  next_fault (browser w) = None →
  getMetadata key w
  = (Resolved (default VUndefined (md !! key)), after_request (MetadataGet key) w).
Proof.
  intros Hi Hk Hm Hf. unfold getMetadata, bind. rewrite init_initialized by done.
  unfold get_this. rewrite (uses_db_transactional _ Hk).
  rewrite idb_request_success; [|simpl; rewrite Hm; by apply bool_decide_eq_true|done].
  simpl. by rewrite Hm.
Qed.

Lemma saveMetadata_transactional key value w md :
  initialized (this w) = true →
  backendKind w = TransactionalStore →
  metadata_store (database (browser w)) = Some md →
  next_fault (browser w) = None →
  saveMetadata key value w = (Resolved true, after_request (MetadataPut key value) w).
Proof.
  intros Hi Hk Hm Hf. unfold saveMetadata, bind. rewrite init_initialized by done.
  unfold get_this. rewrite (uses_db_transactional _ Hk).
  rewrite idb_request_success; [done|simpl; rewrite Hm; by apply bool_decide_eq_true|done].
Qed.

(** The migration when the flag is already set: one lookup, no copy. *)
Lemma migrate_skips w md :
  initialized (this w) = true →
  backendKind w = TransactionalStore →
  metadata_store (database (browser w)) = Some md →
  next_fault (browser w) = None →
  truthy (default VUndefined (md !! "migrated")) = true →
  migrateFromLocalStorage w = (Resolved tt, after_request (MetadataGet "migrated") w).
Proof.
  intros Hi Hk Hmd Hf Hflag. unfold migrateFromLocalStorage, try_catch.
  unfold bind at 1. rewrite (getMetadata_transactional _ _ md) by done.
  by rewrite Hflag.
Qed.

(** The migration when no request fails: every record is copied, in array
    order, then the flag is set. *)
Lemma migrate_copies w m md legacy :
  initialized (this w) = true →
  backendKind w = TransactionalStore →
  lessons_store (database (browser w)) = Some m →
  metadata_store (database (browser w)) = Some md →
  truthy (default VUndefined (md !! "migrated")) = false →
  legacy_entry w = Some (VArray legacy) →
  (∀ i, i < length legacy + 2 → fault_at (faults (browser w)) i = None) →
  migrateFromLocalStorage w = (Resolved tt, migrated_world legacy w).
Proof.
  intros Hi Hk Hm Hmd Hflag Hlegacy Hq. unfold migrateFromLocalStorage, try_catch.
  unfold bind at 1. rewrite (getMetadata_transactional _ _ md); try done.
  2:{ rewrite next_fault_at. apply Hq. lia. }
  rewrite Hflag. set (w1 := after_request (MetadataGet "migrated") w).
  unfold bind at 1. unfold localStorage_getItem at 1.
  change (ls_items (localStorage (browser w1)) !! "aiLessons") with (legacy_entry w).
  rewrite Hlegacy. unfold bind at 1. unfold bind at 1. cbn [expect_array ret].
  unfold bind at 1.
  change (for_of legacy (fun lesson => bind (saveLesson lesson) (fun _ => ret tt)))
    with (for_of legacy save_and_continue).
  rewrite (for_of_saveLesson_all legacy w1 m); try done.
  2:{ intros i Hlt. simpl. rewrite fault_at_tail. apply Hq. lia. }
  unfold console_log, update_browser.
  set (w2 := with_browser _ (put_all legacy w1)).
  unfold bind at 1.
  rewrite (saveMetadata_transactional _ _ w2 md); try done.
  - unfold w2, backendKind. simpl. rewrite put_all_this. exact Hi.
  - unfold w2, backendKind. simpl. by rewrite put_all_this.
  - unfold w2. simpl. rewrite put_all_eq. simpl. done.
  - unfold w2. rewrite next_fault_at. simpl. rewrite put_all_faults. simpl.
    rewrite fault_at_drop, fault_at_tail. apply Hq. lia.
Qed.

(** The migration when the save of [r] fails: the loop stops there. *)
Lemma migrate_interrupted w m md pre r post e :
  initialized (this w) = true →
  backendKind w = TransactionalStore →
  lessons_store (database (browser w)) = Some m →
  metadata_store (database (browser w)) = Some md →
  truthy (default VUndefined (md !! "migrated")) = false →
  legacy_entry w = Some (VArray (pre ++ r :: post)) →
  (∀ i, i < length pre + 1 → fault_at (faults (browser w)) i = None) →
  fault_at (faults (browser w)) (length pre + 1) = Some e →
  migrateFromLocalStorage w = (Resolved tt, interrupted_world pre r e w).
Proof.
  intros Hi Hk Hm Hmd Hflag Hlegacy Hq He. unfold migrateFromLocalStorage, try_catch.
  unfold bind at 1. rewrite (getMetadata_transactional _ _ md); try done.
  2:{ rewrite next_fault_at. apply Hq. lia. }
  rewrite Hflag. set (w1 := after_request (MetadataGet "migrated") w).
  unfold bind at 1. unfold localStorage_getItem at 1.
  change (ls_items (localStorage (browser w1)) !! "aiLessons") with (legacy_entry w).
  rewrite Hlegacy. unfold bind at 1. unfold bind at 1. cbn [expect_array ret].
  unfold bind at 1.
  change (for_of (pre ++ r :: post)
            (fun lesson => bind (saveLesson lesson) (fun _ => ret tt)))
    with (for_of (pre ++ r :: post) save_and_continue).
  rewrite (for_of_saveLesson_fails pre r post e w1 m); try done.
  - intros i Hlt. simpl. rewrite fault_at_tail. apply Hq. lia.
  - simpl. rewrite fault_at_tail. by replace (S (length pre)) with (length pre + 1); [|lia].
Qed.

Lemma filter_puts (lessons : list Lesson) :
  filter is_put (LessonsPut <$> lessons) = LessonsPut <$> lessons.
Proof.
  induction lessons as [|l lessons IH]; [done|].
  rewrite fmap_cons, filter_cons. simpl. by rewrite IH.
Qed.

Lemma copies_migrated_world legacy w :
  copies (migrated_world legacy w) = copies w ++ (LessonsPut <$> legacy).
Proof.
  unfold copies, migrated_world. simpl. rewrite put_all_eq. simpl.
  rewrite !filter_app, filter_puts. simpl.
  rewrite !filter_cons, filter_nil. simpl. by rewrite !app_nil_r.
Qed.

Lemma copies_interrupted_world pre r e w :
  copies (interrupted_world pre r e w) = copies w ++ (LessonsPut <$> (pre ++ [r])).
Proof.
  unfold copies, interrupted_world. simpl. rewrite put_all_eq. simpl.
  rewrite !filter_app, filter_puts. simpl.
  rewrite !filter_cons, filter_nil. simpl.
  by rewrite app_nil_r, fmap_app, app_assoc.
Qed.

Lemma migrated_flag_migrated_world legacy w md :
  metadata_store (database (browser w)) = Some md →
  migrated_flag (migrated_world legacy w) = VBool true.
Proof.
  intros Hmd. unfold migrated_flag, migrated_world. simpl. rewrite put_all_eq. simpl.
  rewrite Hmd. simpl. by rewrite lookup_insert_eq.
Qed.

(** C2 (amended): [migrateFromLocalStorage] never re-throws; it saves
    the records one after the other in array order, and sets the flag when
    every save has succeeded.  The first save that fails ends the
    migration: the records before it have been copied, the failing one has
    been attempted, the records after it are not attempted, the flag is
    left as it was, and the rejection is logged. *)
Theorem migration_stops_at_first_failure :
  (∀ w, (migrateFromLocalStorage w).1 = Resolved tt) ∧
  (∀ w m md legacy,
     initialized (this w) = true →
     backendKind w = TransactionalStore →
     lessons_store (database (browser w)) = Some m →
     metadata_store (database (browser w)) = Some md →
     truthy (migrated_flag w) = false →
     legacy_entry w = Some (VArray legacy) →
     (∀ i, i < length legacy + 2 → fault_at (faults (browser w)) i = None) →
     let w' := (migrateFromLocalStorage w).2 in
     copies w' = copies w ++ (LessonsPut <$> legacy) ∧
     migrated_flag w' = VBool true) ∧
  (∀ w m md pre r post e,
     initialized (this w) = true →
     backendKind w = TransactionalStore →
     lessons_store (database (browser w)) = Some m →
     metadata_store (database (browser w)) = Some md →
     truthy (migrated_flag w) = false →
     legacy_entry w = Some (VArray (pre ++ r :: post)) →
     (∀ i, i < length pre + 1 → fault_at (faults (browser w)) i = None) →
     fault_at (faults (browser w)) (length pre + 1) = Some e →
     let w' := (migrateFromLocalStorage w).2 in
     copies w' = copies w ++ (LessonsPut <$> (pre ++ [r])) ∧
     lessons_store (database (browser w')) = Some (insert_all pre m) ∧
     migrated_flag w' = migrated_flag w ∧
     console (browser w') =
       console (browser w) ++
         [ConsoleError "Failed to save lesson to IndexedDB:" (Some e);
          ConsoleError "Migration error:" (Some e)]).
Proof.
  split; [apply migrate_resolves|]. split.
  - intros w m md legacy Hi Hk Hm Hmd Hflag Hlegacy Hq w'. subst w'.
    unfold migrated_flag in Hflag. rewrite Hmd in Hflag. simpl in Hflag.
    rewrite (migrate_copies w m md legacy) by done. cbn [snd].
    split; [apply copies_migrated_world | by eapply migrated_flag_migrated_world].
  - intros w m md pre r post e Hi Hk Hm Hmd Hflag Hlegacy Hq He w'. subst w'.
    pose proof Hflag as Hflag'.
    unfold migrated_flag in Hflag'. rewrite Hmd in Hflag'. simpl in Hflag'.
    rewrite (migrate_interrupted w m md pre r post e) by done. cbn [snd].
    split; [apply copies_interrupted_world|].
    unfold interrupted_world, migrated_flag. simpl. rewrite put_all_eq. simpl.
    rewrite Hm, Hmd. simpl. by rewrite <-app_assoc.
Qed.

Lemma migration_stops_at_first_failure_witness :
  (let w := pending_migration_world in
   let w' := (migrateFromLocalStorage w).2 in
   copies w' = LessonsPut <$> three_lessons ∧ migrated_flag w' = VBool true) ∧
  (let w := interrupted_migration_world in
   let w' := (migrateFromLocalStorage w).2 in
   copies w' = [LessonsPut (lesson 2 "b"); LessonsPut (lesson 1 "a")] ∧
   lessons_store (database (browser w')) = Some (insert_all [lesson 2 "b"] ∅) ∧
   migrated_flag w' = migrated_flag w ∧
   console (browser w') =
     console (browser w) ++
       [ConsoleError "Failed to save lesson to IndexedDB:" (Some sample_error);
        ConsoleError "Migration error:" (Some sample_error)]).
Proof.
  destruct migration_stops_at_first_failure as (_ & Hall & Hstop). split.
  - apply (Hall pending_migration_world ∅ ∅ three_lessons); reflexivity.
  - apply (Hstop interrupted_migration_world ∅ ∅
             [lesson 2 "b"] (lesson 1 "a") [lesson 3 "c"] sample_error);
      try reflexivity.
    intros i Hi. destruct i as [|[|i]]; [reflexivity|reflexivity|simpl in Hi; lia].
Defined.

(** C2 as stated fails: when the save of the second legacy record fails,
    the third record is never attempted. *)
Lemma failed_save_aborts_migration :
  ¬ migration_attempts_all interrupted_migration_world three_lessons.
Proof.
  intros H. specialize (H (lesson 3 "c")).
  assert (lesson 3 "c" ∈ three_lessons) as Hin
    by (apply list_elem_of_In; simpl; auto).
  specialize (H Hin). apply list_elem_of_In in H. vm_compute in H.
  destruct H as [H|[H|[]]]; discriminate H.
Qed.

(** ** The first initialization *)


Lemma next_fault_add_call c b : next_fault (add_call c b) = next_fault b.
Proof. done. Qed.



Lemma size_insert_all (lessons : list Lesson) :
  NoDup (id <$> lessons) →
  size (insert_all lessons ∅) = length lessons ∧
  (map_to_list (insert_all lessons ∅)).*2 ≡ₚ lessons.
Proof.
  intros Hnd.
  assert ((map_to_list (insert_all lessons ∅)).*2 ≡ₚ lessons) as Hp.
  { rewrite insert_all_fresh by done. by rewrite map_to_list_empty, app_nil_r. }
  split; [|done].
  by rewrite <-(length_map_to_list (insert_all lessons ∅)),
    <-(length_fmap snd), (Permutation_length Hp).
Qed.





Lemma copies_opened_world w : copies (opened_world w) = copies w.
Proof.
  unfold copies, opened_world. simpl. rewrite filter_app.
  rewrite filter_cons, filter_nil. simpl. apply app_nil_r.
Qed.





(** * Further properties of the methods *)

(** ** Saving one lesson *)

Lemma saveLesson_resolved_store l w :
  initialized (this w) = true →
  backendKind w = TransactionalStore →
  is_resolved (saveLesson l w).1 →
  ∃ m, lessons_store (database (browser w)) = Some m.
Proof.
  intros Hi Hk. unfold saveLesson, bind. rewrite init_initialized by done.
  unfold get_this. rewrite (uses_db_transactional _ Hk). unfold idb_request. simpl.
  destruct (lessons_store (database (browser w))) as [m|]; [eauto|done].
Qed.

Lemma saveLesson_resolved_array l w :
  initialized (this w) = true →
  backendKind w = SynchronousFallback →
  is_resolved (saveLesson l w).1 →
  ∃ items, parse_or_empty (legacy_entry w) = VArray items.
Proof.
  intros Hi Hk. unfold saveLesson, bind. rewrite init_initialized by done.
  unfold get_this. rewrite (uses_db_fallback _ Hk).
  unfold saveToLocalStorage, try_catch, bind, localStorage_getItem.
  fold (legacy_entry w).
  destruct (parse_or_empty (legacy_entry w)); try done. eauto.
Qed.

Lemma find_lesson_upsert new (items : list Lesson) :
  find_lesson (id new) (upsert new items) = VLesson new.
Proof.
  unfold upsert, findIndex, find_lesson.
  destruct (list_find (fun i => id i = id new) items) as [[i x]|] eqn:Hfind; simpl.
  - apply list_find_Some in Hfind as (Hi & Hx & Hfirst).
    assert (i < length items) as Hlt by (by eapply lookup_lt_Some).
    assert (list_find (fun l => id l = id new) (<[i:=new]> items) = Some (i, new)) as ->;
      [|done].
    apply list_find_Some. split; [by apply list_lookup_insert_eq|]. split; [done|].
    intros j y Hj Hji. rewrite list_lookup_insert_ne in Hj by lia. by eapply Hfirst.
  - rewrite list_find_app_r by done. simpl. by rewrite decide_True.
Qed.

Lemma list_find_insert_other (P : Lesson → Prop) `{!∀ x, Decision (P x)}
    (items : list Lesson) i y :
  ¬ P y → (∀ x, items !! i = Some x → ¬ P x) →
  list_find P (<[i:=y]> items) = list_find P items.
Proof.
  intros Hy. revert i. induction items as [|x items IH]; intros i Hx; [done|].
  destruct i as [|i]; simpl.
  - rewrite decide_False by done. rewrite decide_False by (by apply Hx). done.
  - destruct (decide (P x)); [done|]. by rewrite IH.
Qed.

Lemma find_lesson_upsert_other new key (items : list Lesson) :
  key ≠ id new → find_lesson key (upsert new items) = find_lesson key items.
Proof.
  intros Hne. unfold upsert, findIndex, find_lesson.
  destruct (list_find (fun i => id i = id new) items) as [[i x]|] eqn:Hfind; simpl.
  - apply list_find_Some in Hfind as (Hi & Hx & _).
    rewrite list_find_insert_other; [done|by intros ?|].
    intros x' Hx'. rewrite Hi in Hx'. injection Hx' as <-. by rewrite Hx.
  - destruct (list_find (fun l => id l = key) items) as [[j z]|] eqn:Hk.
    + by rewrite (list_find_app_l _ _ _ j z).
    + rewrite list_find_app_r by done. simpl. by rewrite decide_False by (by intros ?).
Qed.

(** X1: a lesson that [saveLesson] has saved is what [getLesson] of its
    id returns next, whether the id was new or already held; under either
    backend. *)
Theorem saved_lesson_is_found w new :
  initialized (this w) = true →
  healthy w →
  is_resolved (saveLesson new w).1 →
  (getLesson (id new) (saveLesson new w).2).1 = Resolved (VLesson new).
Proof.
  intros Hi Hh Hres. destruct (backendKind w) eqn:Hk.
  - destruct (saveLesson_resolved_store new w Hi Hk Hres) as [m Hm].
    rewrite (saveLesson_transactional new w m) by auto using healthy_next_fault.
    cbn [snd].
    rewrite (getLesson_transactional _ (<[id new:=new]> m)); try done.
    + cbn [fst]. by rewrite lookup_insert_eq.
    + by apply after_request_put.
    + by apply healthy_next_fault, healthy_after_request.
  - destruct (saveLesson_resolved_array new w Hi Hk Hres) as [items Hitems].
    rewrite (saveLesson_fallback_resolved new w items) by done. cbn [snd].
    rewrite (getLesson_fallback_initialized _ (upsert new items));
      [|done|done|by rewrite legacy_entry_stored].
    cbn [fst]. by rewrite find_lesson_upsert.
Qed.

Lemma saved_lesson_is_found_witness :
  (getLesson (IdNum 4) (saveLesson (lesson 4 "d") settled_world).2).1
  = Resolved (VLesson (lesson 4 "d")) ∧
  (getLesson (IdNum 4) (saveLesson (lesson 4 "d") settled_fallback_world).2).1
  = Resolved (VLesson (lesson 4 "d")).
Proof.
  split.
  - apply (saved_lesson_is_found settled_world (lesson 4 "d")); [reflexivity..|exact I].
  - apply (saved_lesson_is_found settled_fallback_world (lesson 4 "d"));
      [reflexivity..|exact I].
Defined.

(** X2: [saveLesson] touches no record of another id: [getLesson] of any
    other id returns after the save what it returned before; under either
    backend. *)
Theorem saveLesson_keeps_other_lessons w new key :
  initialized (this w) = true →
  healthy w →
  is_resolved (saveLesson new w).1 →
  key ≠ id new →
  (getLesson key (saveLesson new w).2).1 = (getLesson key w).1.
Proof.
  intros Hi Hh Hres Hne. destruct (backendKind w) eqn:Hk.
  - destruct (saveLesson_resolved_store new w Hi Hk Hres) as [m Hm].
    rewrite (saveLesson_transactional new w m) by auto using healthy_next_fault.
    cbn [snd].
    rewrite (getLesson_transactional _ (<[id new:=new]> m)); try done.
    + rewrite (getLesson_transactional w m) by auto using healthy_next_fault.
      cbn [fst]. by rewrite lookup_insert_ne.
    + by apply after_request_put.
    + by apply healthy_next_fault, healthy_after_request.
  - destruct (saveLesson_resolved_array new w Hi Hk Hres) as [items Hitems].
    rewrite (saveLesson_fallback_resolved new w items) by done. cbn [snd].
    rewrite (getLesson_fallback_initialized _ (upsert new items));
      [|done|done|by rewrite legacy_entry_stored].
    rewrite (getLesson_fallback_initialized w items) by done.
    cbn [fst]. by rewrite find_lesson_upsert_other.
Qed.

Lemma saveLesson_keeps_other_lessons_witness :
  let w := (call_each saveLesson three_lessons settled_world).2 in
  let w' := (call_each saveLesson three_lessons settled_fallback_world).2 in
  (getLesson (IdNum 2) (saveLesson (lesson 1 "z") w).2).1 = (getLesson (IdNum 2) w).1 ∧
  (getLesson (IdNum 2) (saveLesson (lesson 1 "z") w').2).1 = (getLesson (IdNum 2) w').1.
Proof.
  intros w w'. split.
  - apply (saveLesson_keeps_other_lessons w (lesson 1 "z") (IdNum 2));
      [reflexivity|reflexivity|exact I|discriminate].
  - apply (saveLesson_keeps_other_lessons w' (lesson 1 "z") (IdNum 2));
      [reflexivity|reflexivity|exact I|discriminate].
Defined.

(** ** Failures of the providers *)

(** X3: on the transactional backend a failed write request rejects the
    call with the request's error and leaves the database as it was:
    [saveLesson] (which also logs the error), [deleteLesson] and
    [saveMetadata]. *)
Theorem write_failures_propagate w e :
  initialized (this w) = true →
  backendKind w = TransactionalStore →
  next_fault (browser w) = Some e →
  (is_Some (lessons_store (database (browser w))) →
   ∀ l, (saveLesson l w).1 = Rejected e ∧
        database (browser (saveLesson l w).2) = database (browser w) ∧
        console (browser (saveLesson l w).2) =
          console (browser w) ++
            [ConsoleError "Failed to save lesson to IndexedDB:" (Some e)]) ∧
  (is_Some (lessons_store (database (browser w))) →
   ∀ key, (deleteLesson key w).1 = Rejected e ∧
          database (browser (deleteLesson key w).2) = database (browser w) ∧
          console (browser (deleteLesson key w).2) = console (browser w)) ∧
  (is_Some (metadata_store (database (browser w))) →
   ∀ key value, (saveMetadata key value w).1 = Rejected e ∧
                database (browser (saveMetadata key value w).2) = database (browser w)).
Proof.
  intros Hi Hk Hf. repeat split.
  all: try (unfold saveLesson, bind); try (unfold deleteLesson, bind);
    try (unfold saveMetadata, bind);
    rewrite init_initialized by done; unfold get_this;
    rewrite (uses_db_transactional _ Hk);
    rewrite (idb_request_error _ _ e);
    first [done | simpl; by apply bool_decide_eq_true].
Qed.

Lemma write_failures_propagate_witness :
  let w := failing_request_world in
  (saveLesson (lesson 9 "x") w).1 = Rejected sample_error ∧
  database (browser (saveLesson (lesson 9 "x") w).2) = database (browser w) ∧
  (deleteLesson (IdNum 1) w).1 = Rejected sample_error ∧
  database (browser (deleteLesson (IdNum 1) w).2) = database (browser w) ∧
  (saveMetadata "k" (VNum 1) w).1 = Rejected sample_error.
Proof.
  intros w.
  destruct (write_failures_propagate w sample_error eq_refl eq_refl eq_refl)
    as (Hs & Hd & Hm).
  destruct (Hs (mk_is_Some _ _ eq_refl) (lesson 9 "x")) as (H1 & H2 & _).
  destruct (Hd (mk_is_Some _ _ eq_refl) (IdNum 1)) as (H3 & H4 & _).
  destruct (Hm (mk_is_Some _ _ eq_refl) "k" (VNum 1)) as (H5 & _).
  exact (conj H1 (conj H2 (conj H3 (conj H4 H5)))).
Defined.

(** X6: on the transactional backend a failed read request is absorbed:
    [getAllLessons] logs the error and resolves with the empty array,
    [getMetadata] resolves with [null]; neither rejects, and the database
    is as it was. *)
Theorem read_failures_are_absorbed w e :
  initialized (this w) = true →
  backendKind w = TransactionalStore →
  next_fault (browser w) = Some e →
  (is_Some (lessons_store (database (browser w))) →
   (getAllLessons w).1 = Resolved (VArray []) ∧
   database (browser (getAllLessons w).2) = database (browser w) ∧
   console (browser (getAllLessons w).2) =
     console (browser w) ++
       [ConsoleError "Failed to get lessons from IndexedDB:" (Some e)]) ∧
  (is_Some (metadata_store (database (browser w))) →
   ∀ key, (getMetadata key w).1 = Resolved VNull ∧
          database (browser (getMetadata key w).2) = database (browser w)).
Proof.
  intros Hi Hk Hf. repeat split.
  all: try (unfold getAllLessons, bind); try (unfold getMetadata, bind);
    rewrite init_initialized by done; unfold get_this;
    rewrite (uses_db_transactional _ Hk);
    rewrite (idb_request_error _ _ e);
    first [done | simpl; by apply bool_decide_eq_true].
Qed.

Lemma read_failures_are_absorbed_witness :
  let w := failing_request_world in
  (getAllLessons w).1 = Resolved (VArray []) ∧
  database (browser (getAllLessons w).2) = database (browser w) ∧
  (getMetadata "migrated" w).1 = Resolved VNull.
Proof.
  intros w.
  destruct (read_failures_are_absorbed w sample_error eq_refl eq_refl eq_refl)
    as (Ha & Hm).
  destruct (Ha (mk_is_Some _ _ eq_refl)) as (H1 & H2 & _).
  destruct (Hm (mk_is_Some _ _ eq_refl) "migrated") as (H3 & _).
  exact (conj H1 (conj H2 H3)).
Defined.

(** X4: on the fallback a [saveLesson] whose re-serialized array is larger
    than the capacity fails with [new Error] carrying the message of
    [saveToLocalStorage], and stores nothing; an error of [setItem] that is
    neither named [QuotaExceededError] nor of code 22 is re-thrown as it
    is. *)
Theorem saveLesson_quota_exceeded w l items :
  initialized (this w) = true →
  backendKind w = SynchronousFallback →
  parse_or_empty (legacy_entry w) = VArray items →
  let s := localStorage (browser w) in
  (ls_write_error s = None →
   ls_capacity s < String.length (JSON_stringify (VArray (upsert l items))) →
   saveLesson l w = (Rejected (new_Error quota_message_data), w)) ∧
  (∀ e, ls_write_error s = Some e →
        saveLesson l w =
          (Rejected (if is_quota_error e then new_Error quota_message_data else e), w)).
Proof.
  intros Hi Hk Hitems s. unfold saveLesson, bind. rewrite init_initialized by done.
  unfold get_this. rewrite (uses_db_fallback _ Hk).
  unfold saveToLocalStorage, try_catch, bind, localStorage_getItem.
  fold (legacy_entry w). rewrite Hitems. cbn [expect_array ret].
  fold (upsert l items). unfold localStorage_setItem. fold s. split.
  - intros -> Hc. apply Nat.ltb_lt in Hc. rewrite Hc.
    by change (is_quota_error QuotaExceededError) with true.
  - intros e ->. by destruct (is_quota_error e).
Qed.

Lemma saveLesson_quota_exceeded_witness :
  saveLesson (lesson 3 "c") small_fallback_world
  = (Rejected (new_Error quota_message_data), small_fallback_world) ∧
  saveLesson (lesson 3 "c")
    (init (refusing_world {["aiLessons" := VArray two_lessons]} SecurityError)).2
  = (Rejected SecurityError,
     (init (refusing_world {["aiLessons" := VArray two_lessons]} SecurityError)).2).
Proof.
  split.
  - assert (parse_or_empty (legacy_entry small_fallback_world) = VArray two_lessons)
      as Hitems by (vm_compute; reflexivity).
    destruct (saveLesson_quota_exceeded small_fallback_world (lesson 3 "c") two_lessons
                eq_refl eq_refl Hitems) as [H _].
    apply H; [reflexivity|]. vm_compute. lia.
  - set (w := (init (refusing_world {["aiLessons" := VArray two_lessons]}
                       SecurityError)).2).
    assert (parse_or_empty (legacy_entry w) = VArray two_lessons)
      as Hitems by (vm_compute; reflexivity).
    destruct (saveLesson_quota_exceeded w (lesson 3 "c") two_lessons
                eq_refl eq_refl Hitems) as [_ H].
    apply (H SecurityError eq_refl).
Defined.

(** X5: without the array flag [saveToLocalStorage] stores the item
    itself under the key, in place of whatever the key held; a later call
    with the array flag on that key then throws a [TypeError] (not a quota
    error, so re-thrown as it is) and stores nothing. *)
Theorem saveToLocalStorage_single_item w key item other :
  ls_write_error (localStorage (browser w)) = None →
  String.length (JSON_stringify (VLesson item)) ≤ ls_capacity (localStorage (browser w)) →
  let w' := (saveToLocalStorage key item false w).2 in
  saveToLocalStorage key item false w = (Resolved true, w') ∧
  ls_items (localStorage (browser w')) !! key = Some (VLesson item) ∧
  saveToLocalStorage key other true w'
  = (Rejected (TypeError "array.findIndex is not a function"), w').
Proof.
  intros Hw Hc w'. subst w'.
  unfold saveToLocalStorage, try_catch, bind, localStorage_setItem.
  rewrite Hw. apply Nat.ltb_ge in Hc. rewrite Hc. cbn [fst snd ret].
  split; [done|]. split; [simpl; apply lookup_insert_eq|].
  unfold localStorage_getItem. simpl. rewrite lookup_insert_eq. done.
Qed.

Lemma saveToLocalStorage_single_item_witness :
  let w' := (saveToLocalStorage "aiLessons" (lesson 1 "a") false settled_fallback_world).2 in
  saveToLocalStorage "aiLessons" (lesson 1 "a") false settled_fallback_world
  = (Resolved true, w') ∧
  ls_items (localStorage (browser w')) !! "aiLessons" = Some (VLesson (lesson 1 "a")) ∧
  saveToLocalStorage "aiLessons" (lesson 2 "b") true w'
  = (Rejected (TypeError "array.findIndex is not a function"), w').
Proof.
  apply (saveToLocalStorage_single_item settled_fallback_world "aiLessons"
           (lesson 1 "a") (lesson 2 "b")); [reflexivity|]. vm_compute. lia.
Defined.

(** ** Deleting *)

Lemma getLesson_after_request c w m' key :
  initialized (this w) = true →
  backendKind w = TransactionalStore →
  healthy w →
  lessons_store (database (browser (after_request c w))) = Some m' →
  (getLesson key (after_request c w)).1
  = Resolved (from_option VLesson VUndefined (m' !! key)).
Proof.
  intros Hi Hk Hh Hm'.
  rewrite (getLesson_transactional _ m'); try done.
  by apply healthy_next_fault, healthy_after_request.
Qed.

(** X7: on the transactional backend [deleteLesson] removes the record
    stored under the id and no other: afterwards [getLesson] of that id is
    [undefined] and of any other id what it was; deleting an id the store
    does not hold resolves with [true] and leaves the database as it was. *)
Theorem deleteLesson_removes_record w m key :
  initialized (this w) = true →
  backendKind w = TransactionalStore →
  healthy w →
  lessons_store (database (browser w)) = Some m →
  let w' := (deleteLesson key w).2 in
  (deleteLesson key w).1 = Resolved true ∧
  lessons_store (database (browser w')) = Some (delete key m) ∧
  (getLesson key w').1 = Resolved VUndefined ∧
  (∀ k, k ≠ key → (getLesson k w').1 = (getLesson k w).1) ∧
  (m !! key = None → database (browser w') = database (browser w)).
Proof.
  intros Hi Hk Hh Hm w'.
  assert (deleteLesson key w = (Resolved true, after_request (LessonsDelete key) w))
    as Hdel.
  { unfold deleteLesson, bind. rewrite init_initialized by done.
    unfold get_this. rewrite (uses_db_transactional _ Hk).
    rewrite idb_request_success; [done| |by apply healthy_next_fault].
    simpl. rewrite Hm. by apply bool_decide_eq_true. }
  unfold w'. rewrite Hdel. cbn [fst snd].
  assert (lessons_store (database (browser (after_request (LessonsDelete key) w)))
          = Some (delete key m)) as Hm' by (simpl; by rewrite Hm).
  split; [done|]. split; [done|]. split.
  { rewrite (getLesson_after_request _ _ (delete key m)) by done.
    by rewrite lookup_delete_eq. }
  split.
  { intros k Hne.
    rewrite (getLesson_after_request _ _ (delete key m)) by done.
    rewrite (getLesson_transactional w m) by auto using healthy_next_fault.
    cbn [fst]. by rewrite lookup_delete_ne. }
  intros Habs. simpl. rewrite Hm. simpl. rewrite delete_id by done.
  destruct (database (browser w)) as [v ls md]. simpl in *. by subst.
Qed.

Lemma deleteLesson_removes_record_witness :
  let w' := (deleteLesson (IdNum 1) stocked_world).2 in
  (deleteLesson (IdNum 1) stocked_world).1 = Resolved true ∧
  (getLesson (IdNum 1) w').1 = Resolved VUndefined ∧
  (getLesson (IdNum 2) w').1 = (getLesson (IdNum 2) stocked_world).1 ∧
  database (browser (deleteLesson (IdNum 7) stocked_world).2)
  = database (browser stocked_world).
Proof.
  intros w'.
  assert (∃ m, lessons_store (database (browser stocked_world)) = Some m ∧
               m !! IdNum 7 = None) as (m & Hm & Habs)
    by (eexists; split; vm_compute; reflexivity).
  destruct (deleteLesson_removes_record stocked_world m (IdNum 1)
              eq_refl eq_refl eq_refl Hm) as (H1 & _ & H3 & H4 & _).
  destruct (deleteLesson_removes_record stocked_world m (IdNum 7)
              eq_refl eq_refl eq_refl Hm) as (_ & _ & _ & _ & H5).
  refine (conj H1 (conj H3 (conj (H4 (IdNum 2) _) (H5 Habs)))).
  discriminate.
Defined.

Lemma saveAllLessons_fallback_stores lessons w :
  initialized (this w) = true →
  backendKind w = SynchronousFallback →
  ls_write_error (localStorage (browser w)) = None →
  String.length (JSON_stringify (VArray lessons)) ≤ ls_capacity (localStorage (browser w)) →
  saveAllLessons lessons w = (Resolved true, stored (VArray lessons) w).
Proof.
  intros Hi Hk Hw Hc.
  rewrite saveAllLessons_fallback by (by rewrite init_initialized).
  rewrite init_initialized by done. cbn [snd].
  unfold try_catch, bind, localStorage_setItem. rewrite Hw.
  apply Nat.ltb_ge in Hc. by rewrite Hc.
Qed.

Lemma find_lesson_filter_other key k (items : list Lesson) :
  k ≠ key →
  find_lesson k (filter (fun l => id l ≠ key) items) = find_lesson k items.
Proof.
  intros Hne. unfold find_lesson.
  induction items as [|x items IH]; [done|].
  rewrite filter_cons. destruct (decide (id x ≠ key)) as [Hx|Hx]; simpl.
  - destruct (decide (id x = k)); [done|].
    destruct (list_find _ (filter _ items)) as [[? ?]|],
             (list_find _ items) as [[? ?]|]; simpl in *; congruence.
  - apply dec_stable in Hx. rewrite decide_False by congruence.
    destruct (list_find _ (filter _ items)) as [[? ?]|],
             (list_find _ items) as [[? ?]|]; simpl in *; congruence.
Qed.

(** X8: on the fallback a [deleteLesson] whose re-save is accepted stores
    the array without every record of that id, the others in their order:
    afterwards [getAllLessons] returns the filtered array, [getLesson] of
    the id is [undefined] and of any other id what it was. *)
Theorem deleteLesson_fallback_filters w items key :
  initialized (this w) = true →
  backendKind w = SynchronousFallback →
  parse_or_empty (legacy_entry w) = VArray items →
  ls_write_error (localStorage (browser w)) = None →
  String.length (JSON_stringify (VArray (filter (fun l => id l ≠ key) items)))
    ≤ ls_capacity (localStorage (browser w)) →
  let w' := (deleteLesson key w).2 in
  (deleteLesson key w).1 = Resolved true ∧
  (getAllLessons w').1 = Resolved (VArray (filter (fun l => id l ≠ key) items)) ∧
  (getLesson key w').1 = Resolved VUndefined ∧
  (∀ k, k ≠ key → (getLesson k w').1 = (getLesson k w).1).
Proof.
  intros Hi Hk Hitems Hw Hc w'.
  assert (deleteLesson key w
          = (Resolved true, stored (VArray (filter (fun l => id l ≠ key) items)) w))
    as Hdel.
  { unfold deleteLesson, bind. rewrite init_initialized by done.
    unfold get_this. rewrite (uses_db_fallback _ Hk).
    rewrite getAllLessons_fallback_initialized by done. rewrite Hitems.
    cbn [expect_array ret]. by apply saveAllLessons_fallback_stores. }
  unfold w'. rewrite Hdel. cbn [fst snd].
  split; [done|]. split.
  { rewrite getAllLessons_fallback_initialized by done.
    by rewrite legacy_entry_stored. }
  split.
  { rewrite (getLesson_fallback_initialized _ (filter (fun l => id l ≠ key) items));
      [|done|done|by rewrite legacy_entry_stored].
    cbn [fst]. rewrite find_lesson_absent; [done|].
    intros l Hl. by apply list_elem_of_filter in Hl as [? _]. }
  intros k Hne.
  rewrite (getLesson_fallback_initialized _ (filter (fun l => id l ≠ key) items));
    [|done|done|by rewrite legacy_entry_stored].
  rewrite (getLesson_fallback_initialized w items) by done.
  cbn [fst]. by rewrite find_lesson_filter_other.
Qed.

Lemma deleteLesson_fallback_filters_witness :
  let w' := (deleteLesson (IdNum 1) stocked_fallback_world).2 in
  (deleteLesson (IdNum 1) stocked_fallback_world).1 = Resolved true ∧
  (getAllLessons w').1 = Resolved (VArray [lesson 2 "b"; lesson 3 "c"]) ∧
  (getLesson (IdNum 1) w').1 = Resolved VUndefined ∧
  (getLesson (IdNum 3) w').1 = (getLesson (IdNum 3) stocked_fallback_world).1.
Proof.
  intros w'.
  assert (parse_or_empty (legacy_entry stocked_fallback_world) = VArray three_lessons)
    as Hitems by (vm_compute; reflexivity).
  destruct (deleteLesson_fallback_filters stocked_fallback_world three_lessons (IdNum 1)
              eq_refl eq_refl Hitems eq_refl) as (H1 & H2 & H3 & H4).
  { vm_compute. lia. }
  refine (conj H1 (conj H2 (conj H3 (H4 (IdNum 3) _)))). discriminate.
Defined.

(** ** Saving all lessons at once *)

Lemma fault_at_healthy w i : healthy w → fault_at (faults (browser w)) i = None.
Proof. unfold healthy. intros ->. done. Qed.

Lemma saveAllLessons_transactional_clears lessons w m :
  initialized (this w) = true →
  backendKind w = TransactionalStore →
  lessons_store (database (browser w)) = Some m →
  next_fault (browser w) = None →
  saveAllLessons lessons w
  = bind (for_of lessons save_and_continue) (fun _ => ret true)
      (after_request LessonsClear w).
Proof.
  intros Hi Hk Hm Hf. unfold saveAllLessons. unfold bind at 1.
  rewrite init_initialized by done. unfold bind at 1. unfold get_this at 1.
  rewrite (uses_db_transactional _ Hk). unfold bind at 1. unfold bind at 1.
  rewrite idb_request_success; [done| |done].
  simpl. rewrite Hm. by apply bool_decide_eq_true.
Qed.

(** X9: on the transactional backend a [saveAllLessons] whose requests
    all succeed replaces the content of the lessons store: the records
    held before are gone and the store holds the input, a later record
    winning over an earlier one with the same id; with pairwise distinct
    ids [getAllLessons] then returns the input up to order. *)
Theorem saveAllLessons_replaces_content w m lessons :
  initialized (this w) = true →
  backendKind w = TransactionalStore →
  healthy w →
  lessons_store (database (browser w)) = Some m →
  let w' := (saveAllLessons lessons w).2 in
  (saveAllLessons lessons w).1 = Resolved true ∧
  lessons_store (database (browser w')) = Some (insert_all lessons ∅) ∧
  (NoDup (id <$> lessons) →
   ∃ returned, (getAllLessons w').1 = Resolved (VArray returned) ∧
               returned ≡ₚ lessons).
Proof.
  intros Hi Hk Hh Hm w'. unfold w'.
  rewrite (saveAllLessons_transactional_clears lessons w m)
    by auto using healthy_next_fault.
  set (w1 := after_request LessonsClear w).
  assert (lessons_store (database (browser w1)) = Some ∅) as Hm1
    by (unfold w1; simpl; by rewrite Hm).
  assert (healthy w1) as Hh1 by (by apply healthy_after_request).
  unfold bind. rewrite (for_of_saveLesson_all lessons w1 ∅); try done.
  2:{ intros i _. by apply fault_at_healthy. }
  cbn [fst snd ret]. split; [done|].
  pose proof (put_all_lessons lessons w1 ∅ Hm1) as Hm2.
  split; [done|]. intros Hnd.
  rewrite (getAllLessons_transactional _ (insert_all lessons ∅)); try done.
  - eexists. split; [done|]. rewrite all_records_perm.
    by apply size_insert_all.
  - by rewrite put_all_this.
  - unfold backendKind. by rewrite put_all_this.
  - rewrite next_fault_at, put_all_faults, fault_at_drop. by apply fault_at_healthy.
Qed.

Lemma saveAllLessons_replaces_content_witness :
  let w' := (saveAllLessons two_lessons stocked_world).2 in
  (saveAllLessons two_lessons stocked_world).1 = Resolved true ∧
  lessons_store (database (browser w')) = Some (insert_all two_lessons ∅) ∧
  ∃ returned, (getAllLessons w').1 = Resolved (VArray returned) ∧
              returned ≡ₚ two_lessons.
Proof.
  intros w'.
  assert (∃ m, lessons_store (database (browser stocked_world)) = Some m) as [m Hm]
    by (eexists; vm_compute; reflexivity).
  destruct (saveAllLessons_replaces_content stocked_world m two_lessons
              eq_refl eq_refl eq_refl Hm) as (H1 & H2 & H3).
  refine (conj H1 (conj H2 (H3 _))).
  apply (bool_decide_unpack _). vm_compute. exact I.
Defined.

(** X10: on the transactional backend, when the [clear] request of
    [saveAllLessons] fails nothing settles the promise awaited (it has no
    [onerror]): the call stays pending, neither resolved nor rejected, no
    record is written and the database is as it was. *)
Theorem saveAllLessons_clear_failure_hangs w lessons e :
  initialized (this w) = true →
  backendKind w = TransactionalStore →
  is_Some (lessons_store (database (browser w))) →
  next_fault (browser w) = Some e →
  (saveAllLessons lessons w).1 = Pending ∧
  database (browser (saveAllLessons lessons w).2) = database (browser w) ∧
  copies (saveAllLessons lessons w).2 = copies w.
Proof.
  intros Hi Hk Hs Hf.
  assert (saveAllLessons lessons w
          = (Pending, with_browser (fun b => pop_fault (add_call LessonsClear b)) w))
    as ->.
  { unfold saveAllLessons. unfold bind at 1.
    rewrite init_initialized by done. unfold bind at 1. unfold get_this at 1.
    rewrite (uses_db_transactional _ Hk). unfold bind at 1. unfold bind at 1.
    rewrite (idb_request_error _ _ e); [done|simpl; by apply bool_decide_eq_true|done]. }
  repeat split.
  unfold copies. simpl. rewrite filter_app, filter_cons, filter_nil. simpl.
  apply app_nil_r.
Qed.

Lemma saveAllLessons_clear_failure_hangs_witness :
  (saveAllLessons two_lessons failing_request_world).1 = Pending ∧
  database (browser (saveAllLessons two_lessons failing_request_world).2)
  = database (browser failing_request_world) ∧
  copies (saveAllLessons two_lessons failing_request_world).2
  = copies failing_request_world.
Proof.
  apply (saveAllLessons_clear_failure_hangs failing_request_world two_lessons
           sample_error eq_refl eq_refl (mk_is_Some _ _ eq_refl) eq_refl).
Defined.

(** X11: on the transactional backend [saveAllLessons] is not atomic:
    when the save of one record fails after the [clear], the call rejects
    with that error and the store is left with only the records of the
    input that precede the failing one; the records held before the call
    are lost. *)
Theorem saveAllLessons_partial_on_failure w m pre r post e :
  initialized (this w) = true →
  backendKind w = TransactionalStore →
  lessons_store (database (browser w)) = Some m →
  (∀ i, i < length pre + 1 → fault_at (faults (browser w)) i = None) →
  fault_at (faults (browser w)) (length pre + 1) = Some e →
  (saveAllLessons (pre ++ r :: post) w).1 = Rejected e ∧
  lessons_store (database (browser (saveAllLessons (pre ++ r :: post) w).2))
  = Some (insert_all pre ∅).
Proof.
  intros Hi Hk Hm Hq He.
  rewrite (saveAllLessons_transactional_clears _ w m); try done.
  2:{ rewrite next_fault_at. apply Hq. lia. }
  set (w1 := after_request LessonsClear w).
  assert (lessons_store (database (browser w1)) = Some ∅) as Hm1
    by (unfold w1; simpl; by rewrite Hm).
  unfold bind. rewrite (for_of_saveLesson_fails pre r post e w1 ∅); try done.
  - cbn [fst snd]. split; [done|].
    change (lessons_store (database (browser (put_all pre w1))) = Some (insert_all pre ∅)).
    by apply put_all_lessons.
  - intros i Hlt. simpl. rewrite fault_at_tail. apply Hq. lia.
  - simpl. rewrite fault_at_tail.
    by replace (S (length pre)) with (length pre + 1); [|lia].
Qed.

Lemma saveAllLessons_partial_on_failure_witness :
  let w := with_browser (set_faults [None; None; Some sample_error]) stocked_world in
  let lessons := [lesson 7 "g"] ++ lesson 8 "h" :: [lesson 9 "i"] in
  (saveAllLessons lessons w).1 = Rejected sample_error ∧
  lessons_store (database (browser (saveAllLessons lessons w).2))
  = Some (insert_all [lesson 7 "g"] ∅).
Proof.
  intros w lessons.
  assert (∃ m, lessons_store (database (browser w)) = Some m) as [m Hm]
    by (eexists; vm_compute; reflexivity).
  apply (saveAllLessons_partial_on_failure w m [lesson 7 "g"] (lesson 8 "h")
           [lesson 9 "i"] sample_error eq_refl eq_refl Hm); [|reflexivity].
  intros i Hi. destruct i as [|[|i]]; [reflexivity|reflexivity|simpl in Hi; lia].
Defined.

(** X12: on the fallback a [saveAllLessons] that is accepted stores the
    input array as it is, in place of the previous entry: [getAllLessons]
    then returns exactly the input, in its order and with its repeated
    ids if any. *)
Theorem saveAllLessons_fallback_round_trip w lessons :
  initialized (this w) = true →
  backendKind w = SynchronousFallback →
  ls_write_error (localStorage (browser w)) = None →
  String.length (JSON_stringify (VArray lessons)) ≤ ls_capacity (localStorage (browser w)) →
  (saveAllLessons lessons w).1 = Resolved true ∧
  (getAllLessons (saveAllLessons lessons w).2).1 = Resolved (VArray lessons).
Proof.
  intros Hi Hk Hw Hc. rewrite saveAllLessons_fallback_stores by done.
  cbn [fst snd]. split; [done|].
  rewrite getAllLessons_fallback_initialized by done.
  by rewrite legacy_entry_stored.
Qed.

Lemma saveAllLessons_fallback_round_trip_witness :
  (saveAllLessons duplicated_lessons stocked_fallback_world).1 = Resolved true ∧
  (getAllLessons (saveAllLessons duplicated_lessons stocked_fallback_world).2).1
  = Resolved (VArray duplicated_lessons).
Proof.
  apply (saveAllLessons_fallback_round_trip stocked_fallback_world duplicated_lessons);
    [reflexivity|reflexivity|reflexivity|]. vm_compute. lia.
Defined.

(** ** Metadata *)

(** X13: on the transactional backend the metadata store gives back what
    was put: after [saveMetadata key value], [getMetadata key] resolves
    with [value], and [getMetadata] of any other key with what it resolved
    with before. *)
Theorem metadata_round_trip w md key value :
  initialized (this w) = true →
  backendKind w = TransactionalStore →
  healthy w →
  metadata_store (database (browser w)) = Some md →
  let w' := (saveMetadata key value w).2 in
  (saveMetadata key value w).1 = Resolved true ∧
  (getMetadata key w').1 = Resolved value ∧
  (∀ k, k ≠ key → (getMetadata k w').1 = (getMetadata k w).1).
Proof.
  intros Hi Hk Hh Hmd w'. unfold w'.
  rewrite (saveMetadata_transactional key value w md) by auto using healthy_next_fault.
  cbn [fst snd]. split; [done|].
  assert (metadata_store (database (browser (after_request (MetadataPut key value) w)))
          = Some (<[key:=value]> md)) as Hmd' by (simpl; by rewrite Hmd).
  assert (next_fault (browser (after_request (MetadataPut key value) w)) = None) as Hf'
    by (by apply healthy_next_fault, healthy_after_request).
  split.
  - rewrite (getMetadata_transactional _ _ (<[key:=value]> md)) by done.
    cbn [fst]. by rewrite lookup_insert_eq.
  - intros k Hne.
    rewrite (getMetadata_transactional _ _ (<[key:=value]> md)) by done.
    rewrite (getMetadata_transactional _ _ md) by auto using healthy_next_fault.
    cbn [fst]. by rewrite lookup_insert_ne.
Qed.

Lemma metadata_round_trip_witness :
  let w' := (saveMetadata "theme" (VStr "dark") stocked_world).2 in
  (saveMetadata "theme" (VStr "dark") stocked_world).1 = Resolved true ∧
  (getMetadata "theme" w').1 = Resolved (VStr "dark") ∧
  (getMetadata "migrated" w').1 = (getMetadata "migrated" stocked_world).1.
Proof.
  intros w'.
  assert (∃ md, metadata_store (database (browser stocked_world)) = Some md) as [md Hmd]
    by (eexists; vm_compute; reflexivity).
  destruct (metadata_round_trip stocked_world md "theme" (VStr "dark")
              eq_refl eq_refl eq_refl Hmd) as (H1 & H2 & H3).
  refine (conj H1 (conj H2 (H3 "migrated" _))). discriminate.
Defined.

(** X14: on the fallback metadata is not kept: [saveMetadata] resolves
    with [true] without storing anything (the world is unchanged) and
    [getMetadata] resolves with [null], also for a key just saved. *)
Theorem metadata_is_dropped_on_fallback w key value :
  initialized (this w) = true →
  backendKind w = SynchronousFallback →
  saveMetadata key value w = (Resolved true, w) ∧
  getMetadata key (saveMetadata key value w).2 = (Resolved VNull, w).
Proof.
  intros Hi Hk.
  assert (saveMetadata key value w = (Resolved true, w)) as ->.
  { unfold saveMetadata, bind. rewrite init_initialized by done.
    unfold get_this. by rewrite (uses_db_fallback _ Hk). }
  split; [done|]. cbn [snd].
  unfold getMetadata, bind. rewrite init_initialized by done.
  unfold get_this. by rewrite (uses_db_fallback _ Hk).
Qed.

Lemma metadata_is_dropped_on_fallback_witness :
  saveMetadata "theme" (VStr "dark") stocked_fallback_world
  = (Resolved true, stocked_fallback_world) ∧
  getMetadata "theme" (saveMetadata "theme" (VStr "dark") stocked_fallback_world).2
  = (Resolved VNull, stocked_fallback_world).
Proof.
  apply (metadata_is_dropped_on_fallback stocked_fallback_world "theme" (VStr "dark"));
    reflexivity.
Defined.

(** ** Storage info *)

(** X15: [getStorageInfo] reports the number of records [getAllLessons]
    returns: on the transactional backend the size of the lessons store
    under the name [IndexedDB], and 0 (not a rejection) when the read
    fails; on the fallback the length of the stored array, under the name
    chosen by [useIndexedDB] alone. *)
Theorem getStorageInfo_counts w :
  initialized (this w) = true →
  (∀ m, backendKind w = TransactionalStore →
        lessons_store (database (browser w)) = Some m →
        next_fault (browser w) = None →
        (getStorageInfo w).1
        = Resolved {| type := "IndexedDB"; lessonsCount := VNum (Z.of_nat (size m)) |}) ∧
  (∀ e, backendKind w = TransactionalStore →
        is_Some (lessons_store (database (browser w))) →
        next_fault (browser w) = Some e →
        (getStorageInfo w).1
        = Resolved {| type := "IndexedDB"; lessonsCount := VNum 0 |}) ∧
  (∀ items, backendKind w = SynchronousFallback →
            parse_or_empty (legacy_entry w) = VArray items →
            getStorageInfo w
            = (Resolved {| type := if useIndexedDB (this w) then "IndexedDB"
                                   else "LocalStorage";
                           lessonsCount := VNum (Z.of_nat (length items)) |}, w)).
Proof.
  intros Hi. split; [|split].
  - intros m Hk Hm Hf. unfold getStorageInfo, bind.
    rewrite init_initialized by done. unfold get_this.
    rewrite (getAllLessons_transactional w m) by done.
    cbn [length_of ret fst]. rewrite all_records_length.
    assert (useIndexedDB (this w) = true) as ->; [|done].
    apply uses_db_transactional in Hk. unfold uses_db in Hk.
    by destruct (useIndexedDB (this w)).
  - intros e Hk Hs Hf.
    assert (getAllLessons w
            = (Resolved (VArray []),
               with_browser
                 (add_console
                    (ConsoleError "Failed to get lessons from IndexedDB:" (Some e)))
                 (with_browser (fun b => pop_fault (add_call LessonsGetAll b)) w)))
      as Hall.
    { unfold getAllLessons, bind. rewrite init_initialized by done.
      unfold get_this. rewrite (uses_db_transactional _ Hk).
      rewrite (idb_request_error _ _ e);
        [done|simpl; by apply bool_decide_eq_true|done]. }
    unfold getStorageInfo, bind. rewrite init_initialized by done. unfold get_this.
    rewrite Hall. cbn [length_of ret fst length].
    assert (useIndexedDB (this w) = true) as ->; [|done].
    apply uses_db_transactional in Hk. unfold uses_db in Hk.
    by destruct (useIndexedDB (this w)).
  - intros items Hk Hitems. unfold getStorageInfo, bind.
    rewrite init_initialized by done. unfold get_this.
    rewrite getAllLessons_fallback_initialized by done. by rewrite Hitems.
Qed.

Lemma getStorageInfo_counts_witness :
  (getStorageInfo stocked_world).1
  = Resolved {| type := "IndexedDB"; lessonsCount := VNum 3 |} ∧
  (getStorageInfo failing_request_world).1
  = Resolved {| type := "IndexedDB"; lessonsCount := VNum 0 |} ∧
  getStorageInfo stocked_fallback_world
  = (Resolved {| type := "LocalStorage"; lessonsCount := VNum 3 |},
     stocked_fallback_world).
Proof.
  split; [|split].
  - destruct (getStorageInfo_counts stocked_world eq_refl) as (H & _ & _).
    assert (∃ m, lessons_store (database (browser stocked_world)) = Some m ∧ size m = 3)
      as (m & Hm & Hsize) by (eexists; split; vm_compute; reflexivity).
    rewrite (H m eq_refl Hm eq_refl). by rewrite Hsize.
  - destruct (getStorageInfo_counts failing_request_world eq_refl) as (_ & H & _).
    apply (H sample_error eq_refl (mk_is_Some _ _ eq_refl) eq_refl).
  - destruct (getStorageInfo_counts stocked_fallback_world eq_refl) as (_ & _ & H).
    assert (parse_or_empty (legacy_entry stocked_fallback_world) = VArray three_lessons)
      as Hitems by (vm_compute; reflexivity).
    apply (H three_lessons eq_refl Hitems).
Defined.

(** ** More on init *)

(** X16: in an environment without [window.indexedDB] the first [init]
    logs a warning, selects the fallback, marks the instance initialized
    and resolves with [true] at once: no open request is made, no
    migration is started, and the database and localStorage are not
    touched. *)
Theorem init_without_indexedDB w :
  initialized (this w) = false →
  has_indexedDB (browser w) = false →
  let w' := (init w).2 in
  init w = (Resolved true, w') ∧
  backendKind w' = SynchronousFallback ∧
  initialized (this w') = true ∧
  db (this w') = db (this w) ∧
  calls (browser w') = calls (browser w) ∧
  pending_opens w' = pending_opens w ∧
  detached w' = detached w ∧
  database (browser w') = database (browser w) ∧
  localStorage (browser w') = localStorage (browser w) ∧
  console (browser w') =
    console (browser w)
    ++ [ConsoleWarn "IndexedDB not available, falling back to localStorage"].
Proof.
  intros Hi Hx w'. subst w'. unfold init, init_begin. rewrite Hi, Hx. done.
Qed.

Lemma init_without_indexedDB_witness :
  let w := fallback_world {["aiLessons" := VArray two_lessons]} 1000 in
  backendKind (init w).2 = SynchronousFallback ∧
  calls (browser (init w).2) = [] ∧
  detached (init w).2 = [].
Proof.
  intros w.
  destruct (init_without_indexedDB w eq_refl eq_refl)
    as (_ & H1 & _ & _ & H2 & _ & H3 & _).
  exact (conj H1 (conj H2 H3)).
Defined.

Lemma init_database w :
  initialized (this w) = false →
  has_indexedDB (browser w) = true →
  database (browser (init w).2)
  = if open_fails w then database (browser w) else upgraded (database (browser w)).
Proof.
  intros Hi Hx. unfold init. rewrite init_begin_opens by done. cbn [snd].
  unfold open_settles, open_fails.
  cbn [browser with_pending with_browser database].
  rewrite next_fault_add_call.
  change (database (add_call (CallOpen dbName dbVersion) (browser w)))
    with (database (browser w)).
  destruct (next_fault (browser w)) as [e|]; simpl; [done|].
  by destruct (dbVersion <? db_version (database (browser w))).
Qed.

(** X17: opening never discards stored data.  When the open request
    succeeds on a database of a lower version, the upgrade handler creates
    the lessons and metadata stores that are missing, empty, and keeps the
    ones that exist with their content; on a database already at the
    requested version, and when the open request fails, the database is
    left exactly as it was. *)
Theorem init_keeps_stored_data w :
  initialized (this w) = false →
  has_indexedDB (browser w) = true →
  let d := database (browser w) in
  let d' := database (browser (init w).2) in
  (open_fails w = false → db_version d < dbVersion →
   db_version d' = dbVersion ∧
   lessons_store d' = Some (default ∅ (lessons_store d)) ∧
   metadata_store d' = Some (default ∅ (metadata_store d))) ∧
  (open_fails w = false → db_version d = dbVersion → d' = d) ∧
  (open_fails w = true → d' = d).
Proof.
  intros Hi Hx d d'. unfold d'. rewrite init_database by done. fold d.
  split; [|split].
  - intros -> Hlt. unfold upgraded. apply Nat.ltb_lt in Hlt. rewrite Hlt.
    unfold init_onupgradeneeded. by destruct d as [v [ls|] [md|]].
  - intros -> Hv. unfold upgraded. rewrite Hv. by rewrite Nat.ltb_irrefl.
  - by intros ->.
Qed.

Lemma init_keeps_stored_data_witness :
  let d' := database (browser (init old_database_world).2) in
  (db_version d' = 1 ∧
   lessons_store d' = Some {[IdNum 5 := lesson 5 "e"]} ∧
   metadata_store d' = Some ∅) ∧
  database (browser (init (reload stocked_world)).2)
  = database (browser (reload stocked_world)) ∧
  database (browser (init failing_open_world).2) = database (browser failing_open_world).
Proof.
  intros d'. split; [|split].
  - destruct (init_keeps_stored_data old_database_world eq_refl eq_refl) as (H & _ & _).
    apply H; [reflexivity|]. simpl. unfold dbVersion. lia.
  - assert (has_indexedDB (browser (reload stocked_world)) = true) as Hx
      by (vm_compute; reflexivity).
    destruct (init_keeps_stored_data (reload stocked_world) eq_refl Hx) as (_ & H & _).
    apply H; vm_compute; reflexivity.
  - destruct (init_keeps_stored_data failing_open_world eq_refl eq_refl) as (_ & _ & H).
    apply H. reflexivity.
Defined.

(** ** More on the migration *)

Lemma insert_all_lookup_other (lessons : list Lesson) (m : gmap LessonId Lesson) key :
  (∀ l, l ∈ lessons → id l ≠ key) → insert_all lessons m !! key = m !! key.
Proof.
  revert m. induction lessons as [|x lessons IH]; intros m Habs; [done|].
  unfold insert_all. simpl. fold (insert_all lessons (<[id x:=x]> m)).
  rewrite IH by (intros l Hl; apply Habs; by right).
  apply lookup_insert_ne, Habs. by left.
Qed.

Lemma insert_all_lookup (lessons : list Lesson) (m : gmap LessonId Lesson) l :
  NoDup (id <$> lessons) → l ∈ lessons → insert_all lessons m !! id l = Some l.
Proof.
  revert m. induction lessons as [|x lessons IH]; intros m Hnd Hl.
  { by apply elem_of_nil in Hl. }
  rewrite fmap_cons in Hnd. apply NoDup_cons in Hnd as [Hx Hnd].
  unfold insert_all. simpl. fold (insert_all lessons (<[id x:=x]> m)).
  apply elem_of_cons in Hl as [->|Hl]; [|by apply IH].
  rewrite insert_all_lookup_other; [apply lookup_insert_eq|].
  intros l' Hl' Heq. apply Hx. rewrite <-Heq. by apply list_elem_of_fmap_2.
Qed.

(** X18: a migration with nothing to copy still sets the flag.  With no
    legacy entry in localStorage it makes no copy, leaves the lessons store
    as it is and sets [migrated] to [true]; with the flag already set it
    makes no copy either, whatever the legacy entry holds. *)
Theorem migration_without_copy w m md :
  initialized (this w) = true →
  backendKind w = TransactionalStore →
  healthy w →
  lessons_store (database (browser w)) = Some m →
  metadata_store (database (browser w)) = Some md →
  let w' := (migrateFromLocalStorage w).2 in
  (truthy (migrated_flag w) = false → legacy_entry w = None →
   copies w' = copies w ∧
   lessons_store (database (browser w')) = Some m ∧
   migrated_flag w' = VBool true) ∧
  (truthy (migrated_flag w) = true →
   copies w' = copies w ∧
   database (browser w') = database (browser w)).
Proof.
  intros Hi Hk Hh Hm Hmd w'. unfold w', migrated_flag. rewrite Hmd. simpl.
  pose proof (healthy_next_fault w Hh) as Hf. split.
  - intros Hflag Hlegacy.
    assert (migrateFromLocalStorage w
            = (Resolved tt,
               after_request (MetadataPut "migrated" (VBool true))
                 (after_request (MetadataGet "migrated") w))) as ->.
    { unfold migrateFromLocalStorage, try_catch.
      unfold bind at 1. rewrite (getMetadata_transactional _ _ md) by done.
      rewrite Hflag. unfold bind at 1. unfold localStorage_getItem at 1.
      change (ls_items (localStorage
                (browser (after_request (MetadataGet "migrated") w))) !! "aiLessons")
        with (legacy_entry w).
      rewrite Hlegacy. unfold bind at 1. cbn [ret]. unfold bind at 1.
      rewrite (saveMetadata_transactional _ _ _ md); try done.
      by apply healthy_next_fault, healthy_after_request. }
    cbn [snd]. split; [|split].
    + unfold copies. simpl. rewrite !filter_app, !filter_cons, !filter_nil. simpl.
      by rewrite !app_nil_r.
    + simpl. by rewrite Hm.
    + simpl. rewrite Hmd. simpl. by rewrite lookup_insert_eq.
  - intros Hflag. rewrite (migrate_skips w md) by done. cbn [snd]. split.
    + unfold copies. simpl. rewrite !filter_app, !filter_cons, !filter_nil. simpl.
      by rewrite !app_nil_r.
    + done.
Qed.

Lemma migration_without_copy_witness :
  (let w := with_detached (fun _ => []) settled_world in
   let w' := (migrateFromLocalStorage w).2 in
   copies w' = copies w ∧ migrated_flag w' = VBool true) ∧
  (let w := run_detached (init legacy_world).2 in
   let w' := (migrateFromLocalStorage w).2 in
   copies w' = copies w ∧ database (browser w') = database (browser w)).
Proof.
  split.
  - intros w w'.
    destruct (migration_without_copy w ∅ ∅ eq_refl eq_refl eq_refl eq_refl eq_refl)
      as [H _].
    destruct H as (H1 & _ & H2); [reflexivity|reflexivity|]. exact (conj H1 H2).
  - intros w w'.
    assert (∃ m md, lessons_store (database (browser w)) = Some m ∧
                    metadata_store (database (browser w)) = Some md)
      as (m & md & Hm & Hmd) by (do 2 eexists; split; vm_compute; reflexivity).
    destruct (migration_without_copy w m md eq_refl eq_refl eq_refl Hm Hmd) as [_ H].
    apply H. vm_compute. reflexivity.
Defined.

Lemma migrate_after_failed_lookup w m md legacy e :
  initialized (this w) = true →
  backendKind w = TransactionalStore →
  lessons_store (database (browser w)) = Some m →
  metadata_store (database (browser w)) = Some md →
  legacy_entry w = Some (VArray legacy) →
  fault_at (faults (browser w)) 0 = Some e →
  (∀ i, 0 < i < length legacy + 2 → fault_at (faults (browser w)) i = None) →
  migrateFromLocalStorage w = (Resolved tt, remigrated_world legacy w).
Proof.
  intros Hi Hk Hm Hmd Hlegacy He Hq. unfold migrateFromLocalStorage, try_catch.
  unfold bind at 1.
  assert (getMetadata "migrated" w
          = (Resolved VNull,
             with_browser (fun b => pop_fault (add_call (MetadataGet "migrated") b)) w))
    as ->.
  { unfold getMetadata, bind. rewrite init_initialized by done.
    unfold get_this. rewrite (uses_db_transactional _ Hk).
    rewrite (idb_request_error _ _ e); [done| |by rewrite next_fault_at].
    simpl. rewrite Hmd. by apply bool_decide_eq_true. }
  cbn [truthy].
  set (w1 := with_browser (fun b => pop_fault (add_call (MetadataGet "migrated") b)) w).
  unfold bind at 1. unfold localStorage_getItem at 1.
  change (ls_items (localStorage (browser w1)) !! "aiLessons") with (legacy_entry w).
  rewrite Hlegacy. unfold bind at 1. unfold bind at 1. cbn [expect_array ret].
  unfold bind at 1.
  change (for_of legacy (fun lesson => bind (saveLesson lesson) (fun _ => ret tt)))
    with (for_of legacy save_and_continue).
  rewrite (for_of_saveLesson_all legacy w1 m); try done.
  2:{ intros i Hlt. simpl. rewrite fault_at_tail. apply Hq. lia. }
  unfold console_log, update_browser.
  set (w2 := with_browser _ (put_all legacy w1)).
  unfold bind at 1.
  rewrite (saveMetadata_transactional _ _ w2 md); try done.
  - unfold w2, backendKind. simpl. rewrite put_all_this. exact Hi.
  - unfold w2, backendKind. simpl. by rewrite put_all_this.
  - unfold w2. simpl. rewrite put_all_eq. simpl. done.
  - unfold w2. rewrite next_fault_at. simpl. rewrite put_all_faults. simpl.
    rewrite fault_at_drop, fault_at_tail. apply Hq. lia.
Qed.

(** X19: the migration treats a failed lookup of the flag as "not
    migrated": [getMetadata] resolves with [null], so even with the flag
    set the legacy array is copied again, each legacy record taking the
    place of whatever the store held under its id. *)
Theorem failed_flag_lookup_copies_again w m md legacy e :
  initialized (this w) = true →
  backendKind w = TransactionalStore →
  lessons_store (database (browser w)) = Some m →
  metadata_store (database (browser w)) = Some md →
  legacy_entry w = Some (VArray legacy) →
  NoDup (id <$> legacy) →
  fault_at (faults (browser w)) 0 = Some e →
  (∀ i, 0 < i < length legacy + 2 → fault_at (faults (browser w)) i = None) →
  let w' := (migrateFromLocalStorage w).2 in
  copies w' = copies w ++ (LessonsPut <$> legacy) ∧
  lessons_store (database (browser w')) = Some (insert_all legacy m) ∧
  (∀ l, l ∈ legacy → insert_all legacy m !! id l = Some l).
Proof.
  intros Hi Hk Hm Hmd Hlegacy Hnd He Hq w'. unfold w'.
  rewrite (migrate_after_failed_lookup w m md legacy e) by done. cbn [snd].
  split; [|split].
  - unfold copies, remigrated_world. simpl. rewrite put_all_eq. simpl.
    rewrite !filter_app, filter_puts. simpl.
    rewrite !filter_cons, filter_nil. simpl. by rewrite !app_nil_r.
  - unfold remigrated_world. simpl. rewrite put_all_eq. simpl. by rewrite Hm.
  - intros l Hl. by apply insert_all_lookup.
Qed.

Lemma failed_flag_lookup_copies_again_witness :
  let w := failed_flag_lookup_world in
  let w' := (migrateFromLocalStorage w).2 in
  truthy (migrated_flag w) = true ∧
  (getLesson (IdNum 1) (with_browser (set_faults []) w)).1
  = Resolved (VLesson (lesson 1 "newer")) ∧
  copies w' = copies w ++ (LessonsPut <$> three_lessons) ∧
  (getLesson (IdNum 1) w').1 = Resolved (VLesson (lesson 1 "a")).
Proof.
  intros w w'.
  assert (∃ m md, lessons_store (database (browser w)) = Some m ∧
                  metadata_store (database (browser w)) = Some md)
    as (m & md & Hm & Hmd) by (do 2 eexists; split; vm_compute; reflexivity).
  assert (legacy_entry w = Some (VArray three_lessons)) as Hlegacy
    by (vm_compute; reflexivity).
  assert (NoDup (id <$> three_lessons)) as Hnd
    by (apply (bool_decide_unpack _); vm_compute; exact I).
  destruct (failed_flag_lookup_copies_again w m md three_lessons sample_error
              eq_refl eq_refl Hm Hmd Hlegacy Hnd eq_refl) as (H1 & _ & _).
  { intros i [Hpos _]. destruct i as [|i]; [lia|reflexivity]. }
  split; [vm_compute; reflexivity|]. split; [vm_compute; reflexivity|].
  split; [exact H1|]. vm_compute. reflexivity.
Defined.

(** ** The first save and the migration *)




(** ** What the operations never do *)

Lemma read_only_ret {A} (a : A) : read_only (ret a).
Proof. by intros w _. Qed.

Lemma read_only_throw {A} e : read_only (@throw A e).
Proof. by intros w _. Qed.

Lemma read_only_bind {A B} (m : M A) (k : A → M B) :
  read_only m → (∀ a, read_only (k a)) → read_only (bind m k).
Proof.
  intros Hm Hk w Hi. unfold bind.
  destruct (Hm w Hi) as (Ht & Hd & Hl). destruct (m w) as [[a|e|] w1]; simpl in *;
    try done.
  destruct (Hk a w1) as (Ht' & Hd' & Hl'); [by rewrite Ht|].
  by rewrite Ht', Hd', Hl'.
Qed.

Lemma read_only_init : read_only init.
Proof. intros w Hi. by rewrite init_initialized. Qed.

Lemma read_only_get_this : read_only get_this.
Proof. by intros w _. Qed.

Lemma read_only_console_error text e : read_only (console_error text e).
Proof. by intros w _. Qed.

Lemma read_only_getItem key : read_only (localStorage_getItem key).
Proof. by intros w _. Qed.

Lemma read_only_expect_array what doc : read_only (expect_array what doc).
Proof. destruct doc; first [apply read_only_ret | apply read_only_throw]. Qed.

Lemma read_only_idb_request c :
  (∀ d, (serve c d).2 = d) → read_only (idb_request c).
Proof.
  intros Hc w _. unfold idb_request.
  destruct (store_present _ _); [|done].
  destruct (next_fault _); [done|].
  pose proof (Hc (database (browser (with_browser (add_call c) w)))) as Hd.
  destruct (serve c _) as [r d]. simpl in *. by subst.
Qed.

Ltac read_only_step :=
  match goal with
  | |- read_only (bind _ _) => apply read_only_bind; [|intros ?]
  | |- read_only (idb_request _) => apply read_only_idb_request; by intros ?
  | |- read_only init => apply read_only_init
  | |- read_only get_this => apply read_only_get_this
  | |- read_only (ret _) => apply read_only_ret
  | |- read_only (throw _) => apply read_only_throw
  | |- read_only (console_error _ _) => apply read_only_console_error
  | |- read_only (localStorage_getItem _) => apply read_only_getItem
  | |- read_only (expect_array _ _) => apply read_only_expect_array
  | |- read_only (if ?b then _ else _) => destruct b
  | |- read_only (match ?x with _ => _ end) => destruct x
  end.

Lemma read_only_getAllLessons : read_only getAllLessons.
Proof. unfold getAllLessons. repeat read_only_step. Qed.

(** X21: the reads store nothing.  Once [initialized] is true,
    [getAllLessons], [getLesson], [getMetadata] and [getStorageInfo] leave
    the database, localStorage and the instance fields exactly as they
    were, under either backend and whether or not the request fails. *)
Theorem reads_store_nothing :
  read_only getAllLessons ∧
  (∀ lessonId, read_only (getLesson lessonId)) ∧
  (∀ key, read_only (getMetadata key)) ∧
  read_only getStorageInfo.
Proof.
  split; [apply read_only_getAllLessons|]. split; [|split].
  - intros lessonId. unfold getLesson. repeat read_only_step.
    apply read_only_getAllLessons.
  - intros key. unfold getMetadata. repeat read_only_step.
  - unfold getStorageInfo, length_of. repeat read_only_step.
    apply read_only_getAllLessons.
Qed.

Lemma reads_store_nothing_witness :
  database (browser (getAllLessons failing_request_world).2)
  = database (browser failing_request_world) ∧
  localStorage (browser (getLesson (IdNum 1) stocked_fallback_world).2)
  = localStorage (browser stocked_fallback_world) ∧
  database (browser (getStorageInfo stocked_world).2) = database (browser stocked_world).
Proof.
  destruct reads_store_nothing as (Hall & Hget & _ & Hinfo).
  destruct (Hall failing_request_world eq_refl) as (_ & H1 & _).
  destruct (Hget (IdNum 1) stocked_fallback_world eq_refl) as (_ & _ & H2).
  destruct (Hinfo stocked_world eq_refl) as (_ & H3 & _).
  exact (conj H1 (conj H2 H3)).
Defined.

Lemma off_database_ret {A} (a : A) : off_database (ret a).
Proof. by intros w _ _. Qed.

Lemma off_database_throw {A} e : off_database (@throw A e).
Proof. by intros w _ _. Qed.

Lemma off_database_bind {A B} (m : M A) (k : A → M B) :
  off_database m → (∀ a, off_database (k a)) → off_database (bind m k).
Proof.
  intros Hm Hk w Hi Hu. unfold bind.
  destruct (Hm w Hi Hu) as (Ht & Hc & Hf & Hd).
  destruct (m w) as [[a|e|] w1]; simpl in *; try done.
  destruct (Hk a w1) as (Ht' & Hc' & Hf' & Hd'); [by rewrite Ht|by rewrite Ht|].
  by rewrite Ht', Hc', Hf', Hd'.
Qed.

Lemma off_database_try_catch {A} (body : M A) handler :
  off_database body → (∀ e, off_database (handler e)) →
  off_database (try_catch body handler).
Proof.
  intros Hm Hk w Hi Hu. unfold try_catch.
  destruct (Hm w Hi Hu) as (Ht & Hc & Hf & Hd).
  destruct (body w) as [[a|e|] w1]; simpl in *; try done.
  destruct (Hk e w1) as (Ht' & Hc' & Hf' & Hd'); [by rewrite Ht|by rewrite Ht|].
  by rewrite Ht', Hc', Hf', Hd'.
Qed.

(** The dispatch [if (this.useIndexedDB && this.db)] on the fallback. *)
Lemma off_database_dispatch {A} (k : This → M A) :
  (∀ t, uses_db t = false → off_database (k t)) → off_database (bind get_this k).
Proof. intros Hk w Hi Hu. unfold bind, get_this. by apply Hk. Qed.

Lemma off_database_init : off_database init.
Proof. intros w Hi _. by rewrite init_initialized. Qed.

Lemma off_database_getItem key : off_database (localStorage_getItem key).
Proof. by intros w _ _. Qed.

Lemma off_database_setItem key doc : off_database (localStorage_setItem key doc).
Proof.
  intros w _ _. unfold localStorage_setItem.
  destruct (ls_write_error _); [done|]. by destruct (_ <? _).
Qed.

Lemma off_database_expect_array what doc : off_database (expect_array what doc).
Proof. destruct doc; first [apply off_database_ret | apply off_database_throw]. Qed.

Ltac off_database_step :=
  match goal with
  | |- off_database (bind get_this _) =>
      apply off_database_dispatch;
      let H := fresh in intros ? H; rewrite ?H; clear H
  | |- off_database (bind _ _) => apply off_database_bind; [|intros ?]
  | |- off_database (try_catch _ _) => apply off_database_try_catch; [|intros ?]
  | |- off_database init => apply off_database_init
  | |- off_database (ret _) => apply off_database_ret
  | |- off_database (throw _) => apply off_database_throw
  | |- off_database (localStorage_getItem _) => apply off_database_getItem
  | |- off_database (localStorage_setItem _ _) => apply off_database_setItem
  | |- off_database (expect_array _ _) => apply off_database_expect_array
  | |- off_database (if ?b then _ else _) => destruct b
  | |- off_database (match ?x with _ => _ end) => destruct x
  end.

Lemma off_database_getAllLessons : off_database getAllLessons.
Proof. unfold getAllLessons. repeat off_database_step. Qed.

Lemma off_database_saveAllLessons lessons : off_database (saveAllLessons lessons).
Proof. unfold saveAllLessons. repeat off_database_step. Qed.

(** X22: on the fallback no operation reaches IndexedDB.  Once
    [initialized] is true and the dispatch test is false, every public
    operation leaves the list of IndexedDB calls and the database as they
    were and the fallback selected, however it settles. *)
Theorem fallback_never_calls_indexedDB op w :
  initialized (this w) = true →
  backendKind w = SynchronousFallback →
  calls (browser (perform op w)) = calls (browser w) ∧
  database (browser (perform op w)) = database (browser w) ∧
  backendKind (perform op w) = SynchronousFallback.
Proof.
  intros Hi Hk. pose proof (uses_db_fallback _ Hk) as Hu.
  assert (∀ A (m : M A), off_database m →
            calls (browser (m w).2) = calls (browser w) ∧
            database (browser (m w).2) = database (browser w) ∧
            backendKind (m w).2 = SynchronousFallback) as Hoff.
  { intros A m Hm. destruct (Hm w Hi Hu) as (Ht & Hc & _ & Hd).
    split; [done|]. split; [done|]. unfold backendKind. by rewrite Ht, Hu. }
  destruct op; simpl; apply Hoff.
  - unfold saveLesson, saveToLocalStorage. repeat off_database_step.
  - apply off_database_getAllLessons.
  - unfold getLesson. repeat off_database_step. apply off_database_getAllLessons.
  - unfold deleteLesson. repeat off_database_step;
      first [apply off_database_getAllLessons | apply off_database_saveAllLessons].
  - apply off_database_saveAllLessons.
  - unfold saveMetadata. repeat off_database_step.
  - unfold getMetadata. repeat off_database_step.
  - unfold getStorageInfo, length_of. repeat off_database_step.
    apply off_database_getAllLessons.
Qed.

Lemma fallback_never_calls_indexedDB_witness :
  calls (browser (perform (OpDeleteLesson (IdNum 1)) stocked_fallback_world))
  = calls (browser stocked_fallback_world) ∧
  database (browser (perform (OpDeleteLesson (IdNum 1)) stocked_fallback_world))
  = database (browser stocked_fallback_world) ∧
  backendKind (perform (OpDeleteLesson (IdNum 1)) stocked_fallback_world)
  = SynchronousFallback.
Proof.
  apply (fallback_never_calls_indexedDB (OpDeleteLesson (IdNum 1))
           stocked_fallback_world eq_refl eq_refl).
Defined.

Lemma off_localStorage_ret {A} (a : A) : off_localStorage (ret a).
Proof. by intros w _ _. Qed.

Lemma off_localStorage_throw {A} e : off_localStorage (@throw A e).
Proof. by intros w _ _. Qed.

Lemma off_localStorage_never {A} : off_localStorage (@never A).
Proof. by intros w _ _. Qed.

Lemma off_localStorage_bind {A B} (m : M A) (k : A → M B) :
  off_localStorage m → (∀ a, off_localStorage (k a)) → off_localStorage (bind m k).
Proof.
  intros Hm Hk w Hi Hu. unfold bind.
  destruct (Hm w Hi Hu) as (Ht & Hl).
  destruct (m w) as [[a|e|] w1]; simpl in *; try done.
  destruct (Hk a w1) as (Ht' & Hl'); [by rewrite Ht|by rewrite Ht|].
  by rewrite Ht', Hl'.
Qed.

Lemma off_localStorage_for_of {A} (xs : list A) body :
  (∀ x, off_localStorage (body x)) → off_localStorage (for_of xs body).
Proof.
  intros Hb. induction xs as [|x xs IH]; simpl.
  - apply off_localStorage_ret.
  - apply off_localStorage_bind; [apply Hb | done].
Qed.

(** The dispatch [if (this.useIndexedDB && this.db)] on the transactional
    backend. *)
Lemma off_localStorage_dispatch {A} (k : This → M A) :
  (∀ t, uses_db t = true → off_localStorage (k t)) → off_localStorage (bind get_this k).
Proof. intros Hk w Hi Hu. unfold bind, get_this. by apply Hk. Qed.

Lemma off_localStorage_init : off_localStorage init.
Proof. intros w Hi _. by rewrite init_initialized. Qed.

Lemma off_localStorage_console_error text e : off_localStorage (console_error text e).
Proof. by intros w _ _. Qed.

Lemma off_localStorage_idb_request c : off_localStorage (idb_request c).
Proof.
  intros w _ _. unfold idb_request.
  destruct (store_present _ _); [|done].
  destruct (next_fault _); [done|]. by destruct (serve c _).
Qed.

Ltac off_localStorage_step :=
  match goal with
  | |- off_localStorage (bind get_this _) =>
      apply off_localStorage_dispatch;
      let H := fresh in intros ? H; rewrite ?H; clear H
  | |- off_localStorage (bind _ _) => apply off_localStorage_bind; [|intros ?]
  | |- off_localStorage (for_of _ _) => apply off_localStorage_for_of; intros ?
  | |- off_localStorage init => apply off_localStorage_init
  | |- off_localStorage (ret _) => apply off_localStorage_ret
  | |- off_localStorage (throw _) => apply off_localStorage_throw
  | |- off_localStorage never => apply off_localStorage_never
  | |- off_localStorage (console_error _ _) => apply off_localStorage_console_error
  | |- off_localStorage (idb_request _) => apply off_localStorage_idb_request
  | |- off_localStorage (if ?b then _ else _) => destruct b
  | |- off_localStorage (match ?x with _ => _ end) => destruct x
  end.

Lemma off_localStorage_saveLesson lesson : off_localStorage (saveLesson lesson).
Proof. unfold saveLesson. repeat off_localStorage_step. Qed.

Lemma off_localStorage_getAllLessons : off_localStorage getAllLessons.
Proof. unfold getAllLessons. repeat off_localStorage_step. Qed.

(** X23: on the transactional backend no operation writes localStorage.
    Once [initialized] is true and the dispatch test is true, every public
    operation leaves localStorage, hence the legacy entry, as it was and
    the transactional backend selected, however it settles. *)
Theorem transactional_never_writes_localStorage op w :
  initialized (this w) = true →
  backendKind w = TransactionalStore →
  localStorage (browser (perform op w)) = localStorage (browser w) ∧
  backendKind (perform op w) = TransactionalStore.
Proof.
  intros Hi Hk. pose proof (uses_db_transactional _ Hk) as Hu.
  assert (∀ A (m : M A), off_localStorage m →
            localStorage (browser (m w).2) = localStorage (browser w) ∧
            backendKind (m w).2 = TransactionalStore) as Hoff.
  { intros A m Hm. destruct (Hm w Hi Hu) as (Ht & Hl).
    split; [done|]. unfold backendKind. by rewrite Ht, Hu. }
  destruct op; simpl; apply Hoff.
  - apply off_localStorage_saveLesson.
  - apply off_localStorage_getAllLessons.
  - unfold getLesson. repeat off_localStorage_step.
  - unfold deleteLesson. repeat off_localStorage_step.
  - unfold saveAllLessons. repeat off_localStorage_step.
    apply off_localStorage_saveLesson.
  - unfold saveMetadata. repeat off_localStorage_step.
  - unfold getMetadata. repeat off_localStorage_step.
  - unfold getStorageInfo, length_of. repeat off_localStorage_step;
      apply off_localStorage_getAllLessons.
Qed.

Lemma transactional_never_writes_localStorage_witness :
  localStorage (browser (perform (OpSaveAllLessons two_lessons) stocked_world))
  = localStorage (browser stocked_world) ∧
  backendKind (perform (OpSaveAllLessons two_lessons) stocked_world)
  = TransactionalStore.
Proof.
  apply (transactional_never_writes_localStorage (OpSaveAllLessons two_lessons)
           stocked_world eq_refl eq_refl).
Defined.
